(** * DISO: the analysis session of [src/App.tsx]

    A shallow embedding of the stateful core of the [App] component: the
    error classifier [getFriendlyErrorMessage], the media intake
    [processFile] with its two asynchronous continuations, and the history
    store ([addToHistory], [deleteHistoryItem], [loadHistoryItem]) over
    [localStorage].

    React state is a record updated by setters named like the source's;
    the browser (FileReader, the inference call, localStorage, the console,
    the wall clock) is explicit: operations that the source starts and
    awaits are kept as pending tasks, and every effect is appended to a
    log. *)

From Stdlib Require Import String Ascii List ZArith Bool Lia Sorted DecimalString.
From Stdlib Require DecimalPos DecimalZ.
Import ListNotations.

Local Open Scope string_scope.
Local Open Scope list_scope.
Local Open Scope Z_scope.

(** ** JavaScript string primitives used by the source *)

(** [s.includes(pat)]: [pat] occurs somewhere in [s]. *)
Fixpoint includes (s pat : string) : bool :=
  String.prefix pat s ||
  match s with
  | EmptyString => false
  | String _ rest => includes rest pat
  end.

(** [s.split(sep)] for a one-character separator: the segments between
    occurrences of [sep], in order; never empty. *)
Fixpoint split (sep : ascii) (s : string) : list string :=
  match s with
  | EmptyString => [EmptyString]
  | String c rest =>
      if Ascii.eqb c sep then EmptyString :: split sep rest
      else match split sep rest with
           | seg :: segs => String c seg :: segs
           | [] => [String c EmptyString]
           end
  end.

(** [n.toString()] on an integral number. *)
Definition toString (n : Z) : string := NilZero.string_of_int (Z.to_int n).

(** ** [src/types.ts] *)

Record TechnicalDetails := {
  lightingConsistency : string;
  textureQuality : string;
  anatomicalAccuracy : option string;
  metadataAnalysis : option string;
  temporalConsistency : option string
}.

(** [confidenceScore] is a JS number that the session never computes with;
    it is carried as an integer. *)
Record AnalysisResult := {
  isAiGenerated : bool;
  confidenceScore : Z;
  verdict : string;
  reasoning : list string;
  artifactsFound : list string;
  technicalDetails : TechnicalDetails
}.

Inductive AnalysisStatus := IDLE | ANALYZING | COMPLETED | ERROR.

(** The browser's [File]: the handle the picker delivers.  Its bytes are
    only reachable through a FileReader. *)
Module File.
Record t := { name : string; size : Z; type : string }.
End File.

(** [base64] is [None] where the source's destructuring leaves it
    [undefined] (a reader result without a comma). *)
Module UploadedFile.
Record t := {
  file : File.t;
  previewUrl : string;
  base64 : option string;
  mimeType : string
}.
End UploadedFile.

Module HistoryItem.
Record t := {
  id : string;
  timestamp : Z;
  fileName : string;
  fileType : string;
  previewUrl : string;
  result : AnalysisResult
}.
End HistoryItem.

(** ** Raw errors and their classification *)

(** What a [catch] clause can receive, as far as [error?.message] sees it:
    [None] at the outer level is a nullish error, [message = None] an error
    without a message. *)
Record RawError := { message : option string }.

Definition Error (msg : string) : option RawError := Some {| message := Some msg |}.

Definition msg_auth : string :=
  "Authentication Failed. Please check your API Key configuration.".
Definition msg_invalid : string :=
  "Analysis Rejected. The media format might be unsupported or the file is corrupted.".
Definition msg_overload : string :=
  "System Overload. The AI forensic model is currently busy. Please try again in a moment.".
Definition msg_network : string :=
  "Network Error. Please check your internet connection.".
Definition msg_malformed : string :=
  "Analysis Error. The AI model failed to generate a structured report.".
Definition msg_unknown : string :=
  "An unexpected error occurred during analysis. Please try again.".

(** [(error?.message || '').toString()] *)
Definition message_text (error : option RawError) : string :=
  match error with
  | Some {| message := Some m |} => m
  | _ => ""
  end.

Definition getFriendlyErrorMessage (error : option RawError) : string :=
  let msg := message_text error in
  if includes msg "MISSING_API_KEY" || includes msg "API key" || includes msg "403" then
    msg_auth
  else if includes msg "400" || includes msg "INVALID_ARGUMENT" then
    msg_invalid
  else if includes msg "503" || includes msg "500" || includes msg "Overloaded" then
    msg_overload
  else if includes msg "fetch" || includes msg "network" || includes msg "Failed to fetch" then
    msg_network
  else if includes msg "File too large" then
    msg
  else if includes msg "NO_RESPONSE_TEXT" then
    msg_malformed
  else
    msg_unknown.

(** The branch of [getFriendlyErrorMessage] that fires, named after the
    specification's categories. *)
Inductive ErrorCategory :=
  | Authentication | InvalidMedia | ServiceOverloaded | NetworkUnavailable
  | FileTooLarge | MalformedResponse | Unknown.

Definition classify (error : option RawError) : ErrorCategory :=
  let msg := message_text error in
  if includes msg "MISSING_API_KEY" || includes msg "API key" || includes msg "403" then
    Authentication
  else if includes msg "400" || includes msg "INVALID_ARGUMENT" then
    InvalidMedia
  else if includes msg "503" || includes msg "500" || includes msg "Overloaded" then
    ServiceOverloaded
  else if includes msg "fetch" || includes msg "network" || includes msg "Failed to fetch" then
    NetworkUnavailable
  else if includes msg "File too large" then
    FileTooLarge
  else if includes msg "NO_RESPONSE_TEXT" then
    MalformedResponse
  else
    Unknown.

(** The message each branch returns; the oversize branch echoes the raw
    text. *)
Definition category_message (c : ErrorCategory) (msg : string) : string :=
  match c with
  | Authentication => msg_auth
  | InvalidMedia => msg_invalid
  | ServiceOverloaded => msg_overload
  | NetworkUnavailable => msg_network
  | FileTooLarge => msg
  | MalformedResponse => msg_malformed
  | Unknown => msg_unknown
  end.

(** The substrings each category is recognised by. *)
Definition indicators (c : ErrorCategory) : list string :=
  match c with
  | Authentication => ["MISSING_API_KEY"; "API key"; "403"]
  | InvalidMedia => ["400"; "INVALID_ARGUMENT"]
  | ServiceOverloaded => ["503"; "500"; "Overloaded"]
  | NetworkUnavailable => ["fetch"; "network"; "Failed to fetch"]
  | FileTooLarge => ["File too large"]
  | MalformedResponse => ["NO_RESPONSE_TEXT"]
  | Unknown => []
  end.

Definition matches (msg : string) (c : ErrorCategory) : bool :=
  existsb (includes msg) (indicators c).

(** The order of the checks as the specification lists it, and the
    classification it describes: the earliest category with an indicator in
    the message, [Unknown] when there is none. *)
Definition check_order : list ErrorCategory :=
  [Authentication; InvalidMedia; ServiceOverloaded; NetworkUnavailable;
   FileTooLarge; MalformedResponse].

Definition first_match (msg : string) : ErrorCategory :=
  match find (matches msg) check_order with
  | Some c => c
  | None => Unknown
  end.

(** ** The component's state and the browser around it *)

Inductive Tab := analyze | history_tab.

(** The [useState] cells of [App]. *)
Record AppState := {
  activeTab : Tab;
  status : AnalysisStatus;
  currentFile : option UploadedFile.t;
  result : option AnalysisResult;
  error : option string;
  history : list HistoryItem.t
}.

(** The value under the key [diso_history]: the list that [JSON.stringify]
    wrote, or text that [JSON.parse] rejects. *)
Inductive Stored :=
  | Json (items : list HistoryItem.t)
  | Malformed (raw : string).

(** Effects in the order they happen. *)
Inductive Effect :=
  | ReadAsDataURL (f : File.t)
  | AnalyzeMedia (data : option string) (mimeType : string)
  | SetItem (value : list HistoryItem.t) (accepted : bool)
  | ConsoleWarn (text : string)
  | ConsoleError (text : string).

(** Operations started and not yet settled.  Each keeps what its
    continuation closes over: [processFile] and [addToHistory] belong to
    the render in which the call was made, so the [history] they see is the
    one of that render. *)
Inductive Task :=
  | Reading (f : File.t) (captured : list HistoryItem.t)
  | Analyzing (uploadData : UploadedFile.t) (captured : list HistoryItem.t).

Record World := {
  app : AppState;
  storage : option Stored;
  pending : list Task;
  log : list Effect
}.

Definition with_app (f : AppState -> AppState) (w : World) : World :=
  {| app := f (app w); storage := storage w; pending := pending w; log := log w |}.

Definition setActiveTab (v : Tab) : World -> World :=
  with_app (fun s =>
    {| activeTab := v; status := status s; currentFile := currentFile s;
       result := result s; error := error s; history := history s |}).

Definition setStatus (v : AnalysisStatus) : World -> World :=
  with_app (fun s =>
    {| activeTab := activeTab s; status := v; currentFile := currentFile s;
       result := result s; error := error s; history := history s |}).

Definition setCurrentFile (v : option UploadedFile.t) : World -> World :=
  with_app (fun s =>
    {| activeTab := activeTab s; status := status s; currentFile := v;
       result := result s; error := error s; history := history s |}).

Definition setResult (v : option AnalysisResult) : World -> World :=
  with_app (fun s =>
    {| activeTab := activeTab s; status := status s; currentFile := currentFile s;
       result := v; error := error s; history := history s |}).

Definition setError (v : option string) : World -> World :=
  with_app (fun s =>
    {| activeTab := activeTab s; status := status s; currentFile := currentFile s;
       result := result s; error := v; history := history s |}).

Definition setHistory (v : list HistoryItem.t) : World -> World :=
  with_app (fun s =>
    {| activeTab := activeTab s; status := status s; currentFile := currentFile s;
       result := result s; error := error s; history := v |}).

Definition emit (e : Effect) (w : World) : World :=
  {| app := app w; storage := storage w; pending := pending w; log := log w ++ [e] |}.

Definition spawn (t : Task) (w : World) : World :=
  {| app := app w; storage := storage w; pending := pending w ++ [t]; log := log w |}.

Fixpoint remove_nth {A} (k : nat) (l : list A) {struct l} : list A :=
  match l, k with
  | [], _ => []
  | _ :: l', O => l'
  | x :: l', S k' => x :: remove_nth k' l'
  end.

Definition settle (k : nat) (w : World) : World :=
  {| app := app w; storage := storage w; pending := remove_nth k (pending w); log := log w |}.

(** The [localStorage.setItem] calls recorded in a log. *)
Fixpoint writes (l : list Effect) : list (list HistoryItem.t * bool) :=
  match l with
  | [] => []
  | SetItem v ok :: l' => (v, ok) :: writes l'
  | _ :: l' => writes l'
  end.

Fixpoint reads (l : list Effect) : list File.t :=
  match l with
  | [] => []
  | ReadAsDataURL f :: l' => f :: reads l'
  | _ :: l' => reads l'
  end.

Fixpoint submissions (l : list Effect) : list (option string * string) :=
  match l with
  | [] => []
  | AnalyzeMedia d m :: l' => (d, m) :: submissions l'
  | _ :: l' => submissions l'
  end.

(** The inference requests in flight. *)
Fixpoint in_flight (ts : list Task) : list UploadedFile.t :=
  match ts with
  | [] => []
  | Analyzing u _ :: ts' => u :: in_flight ts'
  | Reading _ _ :: ts' => in_flight ts'
  end.

Definition MAX_SIZE : Z := 20 * 1024 * 1024.

Definition too_large_text : string := "File too large. Please upload media under 20MB.".

(** The message of the TypeError raised by [undefined.split(';')]; the
    wording is the engine's (V8's here). *)
Definition split_of_undefined : option RawError :=
  Error "Cannot read properties of undefined (reading 'split')".

Definition newItem (f : UploadedFile.t) (analysis : AnalysisResult) (t_id t_ts : Z)
  : HistoryItem.t :=
  {| HistoryItem.id := toString t_id;
     HistoryItem.timestamp := t_ts;
     HistoryItem.fileName := File.name (UploadedFile.file f);
     HistoryItem.fileType := UploadedFile.mimeType f;
     HistoryItem.previewUrl := UploadedFile.previewUrl f;
     HistoryItem.result := analysis |}.

(** [{ ...newItem, previewUrl: '' }] *)
Definition itemWithoutImage (item : HistoryItem.t) : HistoryItem.t :=
  {| HistoryItem.id := HistoryItem.id item;
     HistoryItem.timestamp := HistoryItem.timestamp item;
     HistoryItem.fileName := HistoryItem.fileName item;
     HistoryItem.fileType := HistoryItem.fileType item;
     HistoryItem.previewUrl := "";
     HistoryItem.result := HistoryItem.result item |}.



(** [item => item.id !== id] *)
Definition keep (id : string) (item : HistoryItem.t) : bool :=
  negb (String.eqb (HistoryItem.id item) id).

Definition has_id (i : string) (h : list HistoryItem.t) : bool :=
  existsb (fun item => String.eqb (HistoryItem.id item) i) h.

Section Session.

(** Whether [localStorage] takes the serialised list: the store's
    capacity belongs to the browser. *)
Variable quota : list HistoryItem.t -> bool.

(** [localStorage.setItem('diso_history', JSON.stringify(value))]; the
    boolean is [false] when the call throws. *)
Definition setItem (value : list HistoryItem.t) (w : World) : World * bool :=
  if quota value then
    (emit (SetItem value true)
       {| app := app w; storage := Some (Json value);
          pending := pending w; log := log w |}, true)
  else (emit (SetItem value false) w, false).

(** The mount effect: [if (saved)] skips the empty string. *)
Definition load (w : World) : World :=
  match storage w with
  | Some (Json saved) => setHistory saved w
  | Some (Malformed raw) =>
      if String.eqb raw "" then w
      else emit (ConsoleError "Failed to parse history") w
  | None => w
  end.

(** [history] is the list the enclosing render closed over; [t_id] and
    [t_ts] are the two readings of [Date.now()]. *)
Definition addToHistory (history : list HistoryItem.t)
    (file : UploadedFile.t) (analysis : AnalysisResult) (t_id t_ts : Z)
    (w : World) : World :=
  let newItem := newItem file analysis t_id t_ts in
  let updatedHistory := newItem :: history in
  let (w, ok) := setItem updatedHistory w in
  if ok then setHistory updatedHistory w
  else
    let w := emit (ConsoleWarn
               "Storage quota exceeded. Saving history without image preview.") w in
    let itemWithoutImage := itemWithoutImage newItem in
    let updatedHistory := itemWithoutImage :: history in
    let (w, ok) := setItem updatedHistory w in
    if ok then setHistory updatedHistory w
    else emit (ConsoleError "Failed to save history item") w.

(** A throwing [setItem] leaves the handler after the state update. *)
Definition deleteHistoryItem (id : string) (w : World) : World :=
  let updatedHistory := filter (keep id) (history (app w)) in
  let w := setHistory updatedHistory w in
  fst (setItem updatedHistory w).

(** The stand-in handle is [new File([], item.fileName, ...)]: no bytes. *)
Definition loadHistoryItem (item : HistoryItem.t) (w : World) : World :=
  let w := setCurrentFile (Some
    {| UploadedFile.file :=
         {| File.name := HistoryItem.fileName item; File.size := 0;
            File.type := HistoryItem.fileType item |};
       UploadedFile.previewUrl := HistoryItem.previewUrl item;
       UploadedFile.base64 := Some "";
       UploadedFile.mimeType := HistoryItem.fileType item |}) w in
  let w := setResult (Some (HistoryItem.result item)) w in
  let w := setStatus COMPLETED w in
  setActiveTab analyze w.

(** The synchronous part of [processFile], up to [reader.readAsDataURL]. *)
Definition processFile (file : File.t) (w : World) : World :=
  if File.size file >? MAX_SIZE then
    let w := setError (Some (getFriendlyErrorMessage (Error too_large_text))) w in
    setStatus ERROR w
  else
    let w := setStatus ANALYZING w in
    let w := setError None w in
    let w := setResult None w in
    let w := emit (ReadAsDataURL file) w in
    spawn (Reading file (history (app w))) w.

(** [reader.onload], up to the [await]. *)
Definition reader_onload (file : File.t) (captured : list HistoryItem.t)
    (base64Raw : string) (w : World) : World :=
  let parts := split "," base64Raw in
  let meta := hd "" parts in
  let data := nth_error parts 1 in
  match nth_error (split ":" meta) 1 with
  | Some declared =>
      let mimeType := hd "" (split ";" declared) in
      let uploadData :=
        {| UploadedFile.file := file; UploadedFile.previewUrl := base64Raw;
           UploadedFile.base64 := data; UploadedFile.mimeType := mimeType |} in
      let w := setCurrentFile (Some uploadData) w in
      let w := emit (AnalyzeMedia data mimeType) w in
      spawn (Analyzing uploadData captured) w
  | None =>
      let w := emit (ConsoleError (message_text split_of_undefined)) w in
      let w := setError (Some (getFriendlyErrorMessage split_of_undefined)) w in
      setStatus ERROR w
  end.

Definition reader_onerror (w : World) : World :=
  let w := setError (Some "Failed to read file. Please try another file.") w in
  setStatus ERROR w.

(** After the [await], when the inference call delivered [analysis]. *)
Definition analyze_resolved (uploadData : UploadedFile.t)
    (captured : list HistoryItem.t) (analysis : AnalysisResult) (t_id t_ts : Z)
    (w : World) : World :=
  let w := setResult (Some analysis) w in
  let w := setStatus COMPLETED w in
  addToHistory captured uploadData analysis t_id t_ts w.

(** After the [await], when the inference call threw [apiError]. *)
Definition analyze_rejected (apiError : option RawError) (w : World) : World :=
  let w := emit (ConsoleError (message_text apiError)) w in
  let w := setError (Some (getFriendlyErrorMessage apiError)) w in
  setStatus ERROR w.

Definition handleReset (w : World) : World :=
  let w := setStatus IDLE w in
  let w := setCurrentFile None w in
  let w := setResult None w in
  setError None w.

(** The retry button: [currentFile && processFile(currentFile.file)]. *)
Definition retry (w : World) : World :=
  match currentFile (app w) with
  | Some cf => processFile (UploadedFile.file cf) w
  | None => w
  end.

(** What the rendered page offers: the upload area only when idle, the
    retry button only on a failed session that has its media. *)
Definition upload_rendered (w : World) : bool :=
  match activeTab (app w), status (app w) with
  | analyze, IDLE => true
  | _, _ => false
  end.

Definition retry_rendered (w : World) : bool :=
  match activeTab (app w), status (app w), currentFile (app w), error (app w) with
  | analyze, ERROR, Some _, Some e => negb (String.eqb e "")
  | _, _, _, _ => false
  end.

(** How a pending operation settles. *)
Inductive Outcome :=
  | Loaded (base64Raw : string)
  | ReadFailed
  | Resolved (analysis : AnalysisResult) (t_id t_ts : Z)
  | Rejected (apiError : option RawError).

Definition complete (k : nat) (o : Outcome) (w : World) : option World :=
  match nth_error (pending w) k, o with
  | Some (Reading f h), Loaded r => Some (reader_onload f h r (settle k w))
  | Some (Reading _ _), ReadFailed => Some (reader_onerror (settle k w))
  | Some (Analyzing u h), Resolved a t_id t_ts =>
      Some (analyze_resolved u h a t_id t_ts (settle k w))
  | Some (Analyzing _ _), Rejected e => Some (analyze_rejected e (settle k w))
  | _, _ => None
  end.

(** The calls the page and the browser make on the component. *)
Inductive Action :=
  | SubmitFile (f : File.t)
  | Retry
  | Reset
  | SelectHistory (item : HistoryItem.t)
  | DeleteHistory (id : string)
  | Complete (k : nat) (o : Outcome).

Definition step (a : Action) (w : World) : option World :=
  match a with
  | SubmitFile f => Some (processFile f w)
  | Retry => Some (retry w)
  | Reset => Some (handleReset w)
  | SelectHistory item => Some (loadHistoryItem item w)
  | DeleteHistory id => Some (deleteHistoryItem id w)
  | Complete k o => complete k o w
  end.

Fixpoint run (actions : list Action) (w : World) : option World :=
  match actions with
  | [] => Some w
  | a :: rest =>
      match step a w with
      | Some w' => run rest w'
      | None => None
      end
  end.

End Session.

Definition initial (s : option Stored) : World :=
  {| app := {| activeTab := analyze; status := IDLE; currentFile := None;
               result := None; error := None; history := [] |};
     storage := s; pending := []; log := [] |}.

(** ** Vocabulary of the statements *)

(** The character [c] occurs in [s]. *)
Fixpoint has_char (c : ascii) (s : string) : bool :=
  match s with
  | EmptyString => false
  | String c' rest => Ascii.eqb c' c || has_char c rest
  end.

(** The fixed-format prefix of the data URL that [readAsDataURL] produces
    for content of the declared type [mime]; the base64 text follows it. *)
Definition envelope (mime : string) : string := "data:" ++ mime ++ ";base64,".





(** A session that is Submitting shows neither a verdict nor an error. *)
Definition submitting_clean (w : World) : Prop :=
  status (app w) = ANALYZING -> error (app w) = None /\ result (app w) = None.

(** ** Sample sessions *)

Definition quota_all : list HistoryItem.t -> bool := fun _ => true.

Definition quota_none : list HistoryItem.t -> bool := fun _ => false.

(** A store with room for [n] characters of preview text in all. *)
Definition quota_chars (n : nat) : list HistoryItem.t -> bool :=
  fun h =>
    Nat.leb (list_sum (map (fun i => String.length (HistoryItem.previewUrl i)) h)) n.

Definition photo : File.t :=
  {| File.name := "photo.png"; File.size := 2 * 1000 * 1000; File.type := "image/png" |}.

Definition clip : File.t :=
  {| File.name := "clip.mp4"; File.size := 5 * 1000 * 1000; File.type := "video/mp4" |}.

(** Exactly 20 MiB. *)
Definition brim : File.t :=
  {| File.name := "brim.jpg"; File.size := 20971520; File.type := "image/jpeg" |}.

(** 25 MiB. *)
Definition huge : File.t :=
  {| File.name := "huge.mov"; File.size := 26214400; File.type := "video/quicktime" |}.

Definition photo_url : string := "data:image/jpeg;base64,AAAA".

Definition photo_media : UploadedFile.t :=
  {| UploadedFile.file := photo; UploadedFile.previewUrl := photo_url;
     UploadedFile.base64 := Some "AAAA"; UploadedFile.mimeType := "image/jpeg" |}.

Definition likely_synthetic : AnalysisResult :=
  {| isAiGenerated := true; confidenceScore := 87; verdict := "Likely AI-generated";
     reasoning := ["Inconsistent shadows"]; artifactsFound := [];
     technicalDetails :=
       {| lightingConsistency := "low"; textureQuality := "smooth";
          anatomicalAccuracy := None; metadataAnalysis := None;
          temporalConsistency := None |} |}.

Definition old_record : HistoryItem.t :=
  {| HistoryItem.id := "100"; HistoryItem.timestamp := 100;
     HistoryItem.fileName := "old.png"; HistoryItem.fileType := "image/png";
     HistoryItem.previewUrl := "data:image/png;base64,CCCC";
     HistoryItem.result := likely_synthetic |}.

Definition older_record : HistoryItem.t :=
  {| HistoryItem.id := "90"; HistoryItem.timestamp := 90;
     HistoryItem.fileName := "older.png"; HistoryItem.fileType := "image/png";
     HistoryItem.previewUrl := "";
     HistoryItem.result := likely_synthetic |}.

Definition after (quota : list HistoryItem.t -> bool) (actions : list Action)
    (w : World) : World :=
  match run quota actions w with
  | Some w' => w'
  | None => w
  end.

(** The photo was read and its payload is with the inference service. *)
Definition submitting_session : World :=
  after quota_all [SubmitFile photo; Complete 0 (Loaded photo_url)] (initial None).

(** The same session after the inference call failed for lack of a
    connection. *)
Definition failed_session : World :=
  after quota_all [Complete 0 (Rejected (Error "Failed to fetch"))] submitting_session.

(** A page that has two archived analyses. *)
Definition with_history : World :=
  load {| app := app (initial None);
          storage := Some (Json [old_record; older_record]);
          pending := []; log := [] |}.

(** ** The rest of the page *)

(** The icon component [getErrorIcon] picks for the text shown. *)
Inductive Icon := KeyRound | WifiOff | FileWarning | ServerCrash | AlertCircle.

Definition getErrorIcon (errorMessage : string) : Icon :=
  if includes errorMessage "Authentication" then KeyRound
  else if includes errorMessage "Network" then WifiOff
  else if includes errorMessage "File" then FileWarning
  else if includes errorMessage "System" then ServerCrash
  else AlertCircle.

(** The block under "Active Analysis View": any status but idle, and a
    current file. *)
Definition active_view_rendered (w : World) : bool :=
  match activeTab (app w), status (app w), currentFile (app w) with
  | analyze, (ANALYZING | COMPLETED | ERROR), Some _ => true
  | _, _, _ => false
  end.

(** [<AnalysisView result={result} />], inside the active view. *)
Definition result_rendered (w : World) : bool :=
  match status (app w), result (app w) with
  | COMPLETED, Some _ => active_view_rendered w
  | _, _ => false
  end.

(** What stands in the media frame for the current file. *)
Inductive Preview :=
  | VideoPreview (src : string)
  | ImagePreview (src : string)
  | PreviewNotAvailable.

Definition media_preview (cf : UploadedFile.t) : Preview :=
  if String.eqb (UploadedFile.previewUrl cf) "" then PreviewNotAvailable
  else if String.prefix "video/" (UploadedFile.mimeType cf)
       then VideoPreview (UploadedFile.previewUrl cf)
       else ImagePreview (UploadedFile.previewUrl cf).

(** The list a fresh page would show: what the mount effect makes of the
    stored value. *)
Definition persisted_list (s : option Stored) : list HistoryItem.t :=
  match s with
  | Some (Json h) => h
  | _ => []
  end.

Definition in_sync (w : World) : Prop :=
  persisted_list (storage w) = history (app w).

(** The write a deletion makes is taken by the store. *)
Definition delete_accepted (quota : list HistoryItem.t -> bool)
    (a : Action) (w : World) : Prop :=
  match a with
  | DeleteHistory id => quota (filter (keep id) (history (app w))) = true
  | _ => True
  end.

(** The actions that archive or delete. *)
Definition touches_history (a : Action) : bool :=
  match a with
  | DeleteHistory _ => true
  | Complete _ (Resolved _ _ _) => true
  | _ => false
  end.

(** What each status goes with. *)
Definition session_consistent (w : World) : Prop :=
  match status (app w) with
  | IDLE | ANALYZING => error (app w) = None /\ result (app w) = None
  | COMPLETED => result (app w) <> None
  | ERROR => exists m, error (app w) = Some m /\ m <> ""
  end.

(** * Properties *)

(** ** Strings *)

Lemma includes_empty (pat : string) :
  pat <> "" -> includes "" pat = false.
Proof.
  destruct pat as [|c pat]; [congruence|reflexivity].
Qed.

Lemma split_nonempty (sep : ascii) (s : string) : split sep s <> [].
Proof.
  induction s as [|c s IH]; simpl; [discriminate|].
  destruct (Ascii.eqb c sep); [discriminate|].
  destruct (split sep s); discriminate.
Qed.

(** ** The error classifier *)

Lemma friendly_message_by_category (e : option RawError) :
  getFriendlyErrorMessage e = category_message (classify e) (message_text e).
Proof.
  unfold getFriendlyErrorMessage, classify.
  repeat match goal with
         | |- context [if ?b then _ else _] => destruct b
         end; reflexivity.
Qed.

Lemma classify_follows_order (e : option RawError) :
  classify e = first_match (message_text e).
Proof.
  unfold classify, first_match, check_order, matches.
  cbn [find indicators existsb].
  rewrite ?orb_false_r, ?orb_assoc.
  repeat match goal with
         | |- context [if ?b then _ else _] => destruct b
         end; reflexivity.
Qed.

Lemma friendly_message_nonempty (e : option RawError) :
  getFriendlyErrorMessage e <> "".
Proof.
  unfold getFriendlyErrorMessage.
  repeat match goal with
         | |- context [if ?b then _ else _] => destruct b eqn:?
         end; try discriminate.
  intros E. rewrite E in *. discriminate.
Qed.

(** C5. A raw error whose message carries one of the authorization
    indicators is classified [Authentication] and shown the fixed
    authentication message; a raw error that matches no indicator, and in
    particular a nullish error or one without a message, is classified
    [Unknown] and shown the generic fallback; every raw error gets a
    category and a non-empty message. *)
Theorem classify_authentication_and_fallback :
  (forall e, matches (message_text e) Authentication = true ->
     classify e = Authentication /\ getFriendlyErrorMessage e = msg_auth) /\
  (forall e, (forall c, matches (message_text e) c = false) ->
     classify e = Unknown /\ getFriendlyErrorMessage e = msg_unknown) /\
  (forall e, message_text e = "" ->
     classify e = Unknown /\ getFriendlyErrorMessage e = msg_unknown) /\
  (forall e, exists c,
     classify e = c /\
     getFriendlyErrorMessage e = category_message c (message_text e) /\
     getFriendlyErrorMessage e <> "").
Proof.
  repeat split.
  - rewrite classify_follows_order. unfold first_match, check_order.
    cbn [find]. now rewrite H.
  - rewrite friendly_message_by_category, classify_follows_order.
    unfold first_match, check_order. cbn [find]. now rewrite H.
  - rewrite classify_follows_order. unfold first_match, check_order.
    cbn [find]. now rewrite !H.
  - rewrite friendly_message_by_category, classify_follows_order.
    unfold first_match, check_order. cbn [find]. now rewrite !H.
  - rewrite classify_follows_order, H. reflexivity.
  - rewrite friendly_message_by_category, classify_follows_order, H. reflexivity.
  - intros e. exists (classify e). split; [reflexivity|]. split.
    + apply friendly_message_by_category.
    + apply friendly_message_nonempty.
Qed.

(** C9. The checks run in the order Authentication, InvalidMedia,
    ServiceOverloaded, NetworkUnavailable, FileTooLarge, MalformedResponse,
    Unknown: the category of a raw error is the earliest one in that order
    with an indicator in the message, so a message with both 403 and 503 is
    an authentication failure. *)
Theorem classify_earliest_match :
  (forall e, classify e = first_match (message_text e)) /\
  (forall e, getFriendlyErrorMessage e =
             category_message (first_match (message_text e)) (message_text e)) /\
  (forall e c, matches (message_text e) c = true ->
     forall before after, check_order = before ++ c :: after ->
     (forall c', In c' before -> matches (message_text e) c' = false) ->
     classify e = c) /\
  classify (Error "upstream said 503 after 403") = Authentication /\
  getFriendlyErrorMessage (Error "upstream said 503 after 403") = msg_auth.
Proof.
  split; [exact classify_follows_order|].
  split.
  { intros e. rewrite friendly_message_by_category, classify_follows_order.
    reflexivity. }
  split; [|split; reflexivity].
  intros e c Hc before after Hord Hbefore.
  rewrite classify_follows_order. unfold first_match. rewrite Hord.
  clear Hord. induction before as [|b before IH]; simpl.
  - now rewrite Hc.
  - rewrite (Hbefore b) by now left.
    apply IH. intros c' Hin. apply Hbefore. now right.
Qed.

(** ** Logs and setters *)

Lemma writes_app (l1 l2 : list Effect) : writes (l1 ++ l2) = writes l1 ++ writes l2.
Proof.
  induction l1 as [|e l1 IH]; simpl; [reflexivity|].
  destruct e; simpl; now rewrite IH.
Qed.

Lemma reads_app (l1 l2 : list Effect) : reads (l1 ++ l2) = reads l1 ++ reads l2.
Proof.
  induction l1 as [|e l1 IH]; simpl; [reflexivity|].
  destruct e; simpl; now rewrite IH.
Qed.

Lemma submissions_app (l1 l2 : list Effect) :
  submissions (l1 ++ l2) = submissions l1 ++ submissions l2.
Proof.
  induction l1 as [|e l1 IH]; simpl; [reflexivity|].
  destruct e; simpl; now rewrite IH.
Qed.

Lemma in_flight_app (l1 l2 : list Task) :
  in_flight (l1 ++ l2) = in_flight l1 ++ in_flight l2.
Proof.
  induction l1 as [|t l1 IH]; simpl; [reflexivity|].
  destruct t; simpl; now rewrite IH.
Qed.

Lemma nth_error_last {A} (l : list A) (x : A) :
  nth_error (l ++ [x]) (length l) = Some x.
Proof.
  induction l; simpl; auto.
Qed.

Lemma remove_nth_last {A} (l : list A) (x : A) :
  remove_nth (length l) (l ++ [x]) = l.
Proof.
  induction l as [|a l IH]; simpl; [reflexivity|]. now rewrite IH.
Qed.


Ltac setters :=
  unfold setActiveTab, setStatus, setCurrentFile, setResult, setError,
    setHistory, with_app, emit, spawn, settle in *; cbn [app storage pending log
    activeTab status currentFile result error history] in *.

(** ** Intake *)

Lemma too_large_classified :
  classify (Error too_large_text) = FileTooLarge /\
  getFriendlyErrorMessage (Error too_large_text) = too_large_text.
Proof. split; reflexivity. Qed.

Lemma processFile_rejects (file : File.t) (w : World) :
  File.size file > MAX_SIZE ->
  status (app (processFile file w)) = ERROR /\
  error (app (processFile file w)) = Some too_large_text /\
  currentFile (app (processFile file w)) = currentFile (app w) /\
  pending (processFile file w) = pending w /\
  log (processFile file w) = log w.
Proof.
  intros Hsize. unfold processFile.
  replace (File.size file >? MAX_SIZE) with true by (symmetry; apply Z.gtb_lt; lia).
  setters. repeat split; reflexivity.
Qed.

(** C3 (amended). A file whose byte length exceeds the 20 MiB ceiling is
    refused inside the call itself: the session is Failed with the oversize
    message, classified FileTooLarge, and nothing else has happened: no
    read was started, no inference call made, nothing is pending, the
    history and the store are as before. *)
Theorem oversize_rejected_before_read (file : File.t) (w : World) :
  File.size file > MAX_SIZE ->
  let w' := processFile file w in
  status (app w') = ERROR /\
  error (app w') = Some too_large_text /\
  classify (Error too_large_text) = FileTooLarge /\
  log w' = log w /\
  pending w' = pending w /\
  storage w' = storage w /\
  history (app w') = history (app w) /\
  currentFile (app w') = currentFile (app w).
Proof.
  intros Hsize. unfold processFile.
  replace (File.size file >? MAX_SIZE) with true by (symmetry; apply Z.gtb_lt; lia).
  setters. repeat split; reflexivity.
Qed.

(** A file within the ceiling, the ceiling included, is handed to the
    reader. *)
Lemma processFile_accepts (file : File.t) (w : World) :
  File.size file <= MAX_SIZE ->
  processFile file w =
    spawn (Reading file (history (app w)))
      (emit (ReadAsDataURL file)
         (setResult None (setError None (setStatus ANALYZING w)))).
Proof.
  intros Hsize. unfold processFile.
  replace (File.size file >? MAX_SIZE) with false
    by (symmetry; rewrite Z.gtb_ltb; apply Z.ltb_ge; lia).
  reflexivity.
Qed.

Section WithStore.

Variable quota : list HistoryItem.t -> bool.

Lemma setItem_accepted (v : list HistoryItem.t) (w : World) :
  quota v = true ->
  setItem quota v w =
    ({| app := app w; storage := Some (Json v); pending := pending w;
        log := log w ++ [SetItem v true] |}, true).
Proof. intros H. unfold setItem. now rewrite H. Qed.

Lemma setItem_refused (v : list HistoryItem.t) (w : World) :
  quota v = false ->
  setItem quota v w = (emit (SetItem v false) w, false).
Proof. intros H. unfold setItem. now rewrite H. Qed.

(** The three ways [addToHistory] can end. *)
Lemma addToHistory_full history f a t_id t_ts w :
  quota (newItem f a t_id t_ts :: history) = true ->
  addToHistory quota history f a t_id t_ts w =
    {| app := app (setHistory (newItem f a t_id t_ts :: history) w);
       storage := Some (Json (newItem f a t_id t_ts :: history));
       pending := pending w;
       log := log w ++ [SetItem (newItem f a t_id t_ts :: history) true] |}.
Proof.
  intros H. unfold addToHistory. rewrite setItem_accepted by assumption.
  reflexivity.
Qed.

Lemma addToHistory_elided history f a t_id t_ts w :
  let item := newItem f a t_id t_ts in
  quota (item :: history) = false ->
  quota (itemWithoutImage item :: history) = true ->
  addToHistory quota history f a t_id t_ts w =
    {| app := app (setHistory (itemWithoutImage item :: history) w);
       storage := Some (Json (itemWithoutImage item :: history));
       pending := pending w;
       log := log w ++
         [SetItem (item :: history) false;
          ConsoleWarn "Storage quota exceeded. Saving history without image preview.";
          SetItem (itemWithoutImage item :: history) true] |}.
Proof.
  intros item H1 H2. unfold addToHistory. fold item.
  rewrite setItem_refused by assumption.
  rewrite setItem_accepted by assumption.
  setters. now rewrite <- !app_assoc.
Qed.

Lemma addToHistory_dropped history f a t_id t_ts w :
  let item := newItem f a t_id t_ts in
  quota (item :: history) = false ->
  quota (itemWithoutImage item :: history) = false ->
  addToHistory quota history f a t_id t_ts w =
    {| app := app w; storage := storage w; pending := pending w;
       log := log w ++
         [SetItem (item :: history) false;
          ConsoleWarn "Storage quota exceeded. Saving history without image preview.";
          SetItem (itemWithoutImage item :: history) false;
          ConsoleError "Failed to save history item"] |}.
Proof.
  intros item H1 H2. unfold addToHistory. fold item.
  rewrite !setItem_refused by assumption.
  setters. now rewrite <- !app_assoc.
Qed.

(** ** Archival *)

Lemma elided_keeps_metadata (item : HistoryItem.t) :
  HistoryItem.id (itemWithoutImage item) = HistoryItem.id item /\
  HistoryItem.timestamp (itemWithoutImage item) = HistoryItem.timestamp item /\
  HistoryItem.fileName (itemWithoutImage item) = HistoryItem.fileName item /\
  HistoryItem.fileType (itemWithoutImage item) = HistoryItem.fileType item /\
  HistoryItem.result (itemWithoutImage item) = HistoryItem.result item /\
  HistoryItem.previewUrl (itemWithoutImage item) = "".
Proof. repeat split. Qed.

(** C4. When the store refuses the full record, [addToHistory] makes one
    more write and no other, of the same list with the new record's
    preview replaced by the empty string and its id, timestamp, file
    name, content type and verdict kept.  If that write is taken, it is
    what is persisted and listed; if it is refused too, the store and the
    list stay as they were.  Either way the session is Completed with the
    verdict. *)
Theorem append_retries_once_elided uploadData captured analysis t_id t_ts w :
  let item := newItem uploadData analysis t_id t_ts in
  let elided := itemWithoutImage item in
  let w' := analyze_resolved quota uploadData captured analysis t_id t_ts w in
  quota (item :: captured) = false ->
  (HistoryItem.id elided = HistoryItem.id item /\
   HistoryItem.timestamp elided = HistoryItem.timestamp item /\
   HistoryItem.fileName elided = HistoryItem.fileName item /\
   HistoryItem.fileType elided = HistoryItem.fileType item /\
   HistoryItem.result elided = HistoryItem.result item /\
   HistoryItem.previewUrl elided = "") /\
  writes (log w') =
    writes (log w) ++
      [(item :: captured, false); (elided :: captured, quota (elided :: captured))] /\
  status (app w') = COMPLETED /\
  result (app w') = Some analysis /\
  (quota (elided :: captured) = true ->
     storage w' = Some (Json (elided :: captured)) /\
     history (app w') = elided :: captured) /\
  (quota (elided :: captured) = false ->
     storage w' = storage w /\ history (app w') = history (app w)).
Proof.
  intros item elided w' Hfull.
  split; [apply elided_keeps_metadata|].
  subst w'. unfold analyze_resolved.
  destruct (quota (elided :: captured)) eqn:Hel.
  - rewrite addToHistory_elided by assumption. setters.
    rewrite writes_app. simpl. repeat split; discriminate.
  - rewrite addToHistory_dropped by assumption. setters.
    rewrite writes_app. simpl. repeat split; discriminate.
Qed.

(** C10. When the store refuses both the full record and the one without
    preview, the in-memory list is left as it was, as is the store: the
    analysis just completed is not listed, while the session is Completed
    with its verdict. *)
Theorem double_failure_drops_from_memory uploadData captured analysis t_id t_ts w :
  let item := newItem uploadData analysis t_id t_ts in
  let w' := analyze_resolved quota uploadData captured analysis t_id t_ts w in
  quota (item :: captured) = false ->
  quota (itemWithoutImage item :: captured) = false ->
  status (app w') = COMPLETED /\
  result (app w') = Some analysis /\
  history (app w') = history (app w) /\
  storage w' = storage w /\
  (has_id (HistoryItem.id item) (history (app w)) = false ->
   has_id (HistoryItem.id item) (history (app w')) = false) /\
  (~ In item (history (app w)) -> ~ In item (history (app w'))) /\
  (~ In (itemWithoutImage item) (history (app w)) ->
   ~ In (itemWithoutImage item) (history (app w'))).
Proof.
  intros item w' H1 H2. subst w'. unfold analyze_resolved.
  rewrite addToHistory_dropped by assumption. setters.
  repeat split; auto.
Qed.

(** ** Removal *)

Lemma filter_absent id h :
  has_id id h = false -> filter (keep id) h = h.
Proof.
  unfold has_id, keep. induction h as [|x h IH]; simpl; [reflexivity|].
  intros H. apply orb_false_iff in H as [Hx Hh].
  rewrite Hx. simpl. now rewrite IH.
Qed.

Lemma has_id_filter id h : has_id id (filter (keep id) h) = false.
Proof.
  unfold has_id, keep. induction h as [|x h IH]; simpl; [reflexivity|].
  destruct (String.eqb (HistoryItem.id x) id) eqn:E; simpl; [assumption|].
  now rewrite E, IH.
Qed.

Lemma deleteHistoryItem_eq id w :
  let updated := filter (keep id) (history (app w)) in
  deleteHistoryItem quota id w =
    {| app := app (setHistory updated w);
       storage := if quota updated then Some (Json updated) else storage w;
       pending := pending w;
       log := log w ++ [SetItem updated (quota updated)] |}.
Proof.
  intros updated. unfold deleteHistoryItem, setItem. fold updated.
  destruct (quota updated); reflexivity.
Qed.

(** C8. [deleteHistoryItem] filters the list by id: an id that is not
    there leaves the list as it is, a second removal of the same id
    changes neither the list nor the store, no record with the id
    remains, and the call itself writes the updated list to the store,
    which holds it once the write is taken. *)
Theorem remove_idempotent_and_persisted id w :
  let w1 := deleteHistoryItem quota id w in
  let w2 := deleteHistoryItem quota id w1 in
  (has_id id (history (app w)) = false -> history (app w1) = history (app w)) /\
  (app w2 = app w1 /\ storage w2 = storage w1 /\ pending w2 = pending w1) /\
  has_id id (history (app w1)) = false /\
  (forall item, In item (history (app w1)) <->
                In item (history (app w)) /\ HistoryItem.id item <> id) /\
  log w1 = log w ++ [SetItem (history (app w1)) (quota (history (app w1)))] /\
  (quota (history (app w1)) = true ->
   storage w1 = Some (Json (history (app w1)))).
Proof.
  intros w1 w2. subst w2 w1. rewrite !deleteHistoryItem_eq. setters.
  set (h1 := filter (keep id) (history (app w))).
  assert (Hidem : filter (keep id) h1 = h1)
    by (apply filter_absent, has_id_filter).
  rewrite Hidem.
  split; [intros Habs; subst h1; now apply filter_absent|].
  split; [repeat split; destruct (quota h1); reflexivity|].
  split; [apply has_id_filter|].
  split.
  { intros item. subst h1. rewrite filter_In. unfold keep.
    rewrite negb_true_iff, String.eqb_neq. reflexivity. }
  split; [reflexivity|].
  intros Hq. now rewrite Hq.
Qed.

(** ** Ordering of the history *)









(** ** Encoding *)

Lemma append_assoc (a b c : string) : ((a ++ b) ++ c = a ++ (b ++ c))%string.
Proof.
  induction a as [|x a IH]; simpl; [reflexivity|]. now rewrite IH.
Qed.

Lemma has_char_app c (a b : string) :
  has_char c (a ++ b) = has_char c a || has_char c b.
Proof.
  induction a as [|x a IH]; simpl; [reflexivity|].
  now rewrite IH, orb_assoc.
Qed.

Lemma split_no_sep sep s : has_char sep s = false -> split sep s = [s].
Proof.
  induction s as [|c s IH]; simpl; [reflexivity|].
  intros H. apply orb_false_iff in H as [Hc Hs].
  now rewrite Hc, IH.
Qed.

Lemma split_at_sep sep (a b : string) :
  has_char sep a = false ->
  split sep (a ++ String sep b) = a :: split sep b.
Proof.
  induction a as [|c a IH]; simpl.
  - intros _. now rewrite Ascii.eqb_refl.
  - intros H. apply orb_false_iff in H as [Hc Ha].
    now rewrite Hc, IH.
Qed.

(** What [reader.onload] makes of a data URL [data:<mime>;base64,<payload>]. *)
Lemma reader_onload_envelope file captured mime payload w :
  has_char "," mime = false -> has_char ":" mime = false ->
  has_char ";" mime = false -> has_char "," payload = false ->
  let uploadData :=
    {| UploadedFile.file := file;
       UploadedFile.previewUrl := envelope mime ++ payload;
       UploadedFile.base64 := Some payload;
       UploadedFile.mimeType := mime |} in
  reader_onload file captured (envelope mime ++ payload) w =
    spawn (Analyzing uploadData captured)
      (emit (AnalyzeMedia (Some payload) mime)
         (setCurrentFile (Some uploadData) w)).
Proof.
  intros Hcomma Hcolon Hsemi Hpay uploadData. subst uploadData.
  unfold reader_onload.
  assert (Hurl : (envelope mime ++ payload)%string
                 = (("data:" ++ mime ++ ";base64") ++ String "," payload)%string).
  { unfold envelope. simpl. do 5 f_equal.
    rewrite !append_assoc. reflexivity. }
  assert (Hparts : split "," (envelope mime ++ payload)
                   = [("data:" ++ mime ++ ";base64")%string; payload]).
  { rewrite Hurl, split_at_sep, (split_no_sep _ payload) by
      (try assumption; simpl; rewrite has_char_app, Hcomma; reflexivity).
    reflexivity. }
  rewrite Hparts. cbn [hd nth_error].
  assert (Hmeta : split ":" ("data:" ++ mime ++ ";base64")
                  = ["data"; (mime ++ ";base64")%string]).
  { change ("data:" ++ mime ++ ";base64")%string
      with ("data" ++ String ":" (mime ++ ";base64"))%string.
    rewrite split_at_sep by reflexivity.
    rewrite split_no_sep by (rewrite has_char_app, Hcolon; reflexivity).
    reflexivity. }
  rewrite Hmeta. cbn [nth_error].
  change (mime ++ ";base64")%string with (mime ++ String ";" "base64")%string.
  rewrite split_at_sep by assumption. cbn [hd].
  reflexivity.
Qed.

(** C7. A file within the ceiling is handed to the reader, and when the
    reader delivers the data URL [data:<mime>;base64,<payload>], the
    captured media has the whole URL as its preview, [payload] (the
    preview without the prefix [data:<mime>;base64,]) as its encoded
    payload and [mime] as its content type, whatever the file's name and
    own type field say; that payload and content type are what is
    submitted. *)
Theorem encode_strips_envelope file mime payload w :
  File.size file <= MAX_SIZE ->
  has_char "," mime = false -> has_char ":" mime = false ->
  has_char ";" mime = false -> has_char "," payload = false ->
  exists w' uf,
    run quota [SubmitFile file;
               Complete (length (pending w)) (Loaded (envelope mime ++ payload))] w
      = Some w' /\
    currentFile (app w') = Some uf /\
    UploadedFile.file uf = file /\
    UploadedFile.previewUrl uf = (envelope (UploadedFile.mimeType uf) ++ payload)%string /\
    UploadedFile.base64 uf = Some payload /\
    UploadedFile.mimeType uf = mime /\
    submissions (log w') = submissions (log w) ++ [(Some payload, mime)] /\
    in_flight (pending w') = in_flight (pending w) ++ [uf].
Proof.
  intros Hsize Hcomma Hcolon Hsemi Hpay.
  cbn [run step]. rewrite processFile_accepts by assumption.
  unfold complete. setters. rewrite nth_error_last, remove_nth_last.
  rewrite reader_onload_envelope by assumption. setters.
  eexists. eexists. split; [reflexivity|]. setters.
  split; [reflexivity|]. cbn [UploadedFile.file UploadedFile.previewUrl
    UploadedFile.base64 UploadedFile.mimeType].
  repeat split.
  - rewrite !submissions_app. simpl. now rewrite app_nil_r.
  - rewrite in_flight_app. reflexivity.
Qed.

(** ** Retry *)

(** C1 (amended). On a Failed session that holds the media captured at
    the first submission, Retry is [processFile] on the captured raw file
    handle: it starts a new read of that file and submits nothing by
    itself.  When the read delivers the same data URL as the first one,
    the captured media is rebuilt unchanged and the payload and content
    type submitted are the captured ones. *)
Theorem retry_rereads_captured_file w cf payload :
  status (app w) = ERROR ->
  currentFile (app w) = Some cf ->
  File.size (UploadedFile.file cf) <= MAX_SIZE ->
  UploadedFile.previewUrl cf = (envelope (UploadedFile.mimeType cf) ++ payload)%string ->
  UploadedFile.base64 cf = Some payload ->
  has_char "," (UploadedFile.mimeType cf) = false ->
  has_char ":" (UploadedFile.mimeType cf) = false ->
  has_char ";" (UploadedFile.mimeType cf) = false ->
  has_char "," payload = false ->
  let w1 := retry w in
  w1 = processFile (UploadedFile.file cf) w /\
  status (app w1) = ANALYZING /\
  currentFile (app w1) = Some cf /\
  reads (log w1) = reads (log w) ++ [UploadedFile.file cf] /\
  submissions (log w1) = submissions (log w) /\
  pending w1 = pending w ++ [Reading (UploadedFile.file cf) (history (app w))] /\
  exists w2,
    complete quota (length (pending w)) (Loaded (UploadedFile.previewUrl cf)) w1
      = Some w2 /\
    currentFile (app w2) = Some cf /\
    submissions (log w2) =
      submissions (log w) ++ [(UploadedFile.base64 cf, UploadedFile.mimeType cf)].
Proof.
  intros Hst Hcf Hsize Hurl Hb64 Hcomma Hcolon Hsemi Hpay w1.
  assert (Hretry : w1 = processFile (UploadedFile.file cf) w)
    by (subst w1; unfold retry; now rewrite Hcf).
  rewrite Hretry, processFile_accepts by assumption.
  split; [reflexivity|]. setters.
  split; [reflexivity|]. split; [assumption|].
  split; [rewrite reads_app; reflexivity|].
  split; [rewrite submissions_app; simpl; now rewrite app_nil_r|].
  split; [reflexivity|].
  unfold complete. setters. rewrite nth_error_last, remove_nth_last.
  rewrite Hurl, reader_onload_envelope by assumption. setters.
  eexists. split; [reflexivity|]. setters. split.
  - f_equal. destruct cf as [f p b m]; simpl in *. now subst.
  - rewrite !submissions_app, Hb64. simpl. now rewrite app_nil_r.
Qed.

(** ** A second submission *)

Lemma processFile_submitting_clean f w : submitting_clean (processFile f w).
Proof.
  unfold submitting_clean, processFile.
  destruct (File.size f >? MAX_SIZE); setters; [discriminate|auto].
Qed.

Lemma addToHistory_status h f a t_id t_ts w :
  status (app (addToHistory quota h f a t_id t_ts w)) = status (app w).
Proof.
  destruct (quota (newItem f a t_id t_ts :: h)) eqn:E1;
    [rewrite addToHistory_full by assumption|
     destruct (quota (itemWithoutImage (newItem f a t_id t_ts) :: h)) eqn:E2;
     [rewrite addToHistory_elided by assumption
     |rewrite addToHistory_dropped by assumption]];
    reflexivity.
Qed.

Lemma step_submitting_clean a w w' :
  submitting_clean w -> step quota a w = Some w' -> submitting_clean w'.
Proof.
  intros Hclean Hstep.
  destruct a as [f| | |item|id|k o]; simpl in Hstep.
  - injection Hstep as <-. apply processFile_submitting_clean.
  - injection Hstep as <-. unfold retry.
    destruct (currentFile (app w)); [apply processFile_submitting_clean|assumption].
  - injection Hstep as <-. unfold submitting_clean, handleReset. setters. discriminate.
  - injection Hstep as <-. unfold submitting_clean, loadHistoryItem. setters. discriminate.
  - injection Hstep as <-. rewrite deleteHistoryItem_eq.
    unfold submitting_clean in *. setters. assumption.
  - unfold complete in Hstep.
    destruct (nth_error (pending w) k) as [[f h|u h]|]; [| |discriminate];
      destruct o as [r| |an t_id t_ts|e]; try discriminate;
      injection Hstep as <-.
    + unfold submitting_clean in *. unfold reader_onload.
      destruct (nth_error (split ":" (hd "" (split "," r))) 1); setters;
        [assumption|discriminate].
    + unfold submitting_clean, reader_onerror. setters. discriminate.
    + unfold submitting_clean, analyze_resolved.
      rewrite addToHistory_status. setters. discriminate.
    + unfold submitting_clean, analyze_rejected. setters. discriminate.
Qed.

Lemma run_submitting_clean actions w w' :
  submitting_clean w -> run quota actions w = Some w' -> submitting_clean w'.
Proof.
  revert w. induction actions as [|a rest IH]; intros w Hclean Hrun; simpl in Hrun.
  - now injection Hrun as <-.
  - destruct (step quota a w) as [w1|] eqn:E; [|discriminate].
    eapply IH; [|eassumption]. eapply step_submitting_clean; eassumption.
Qed.

(** C2 (amended). [processFile] has no guard on the status, and while the
    session is Submitting the page offers neither the upload area nor the
    retry button.  Called all the same on a Submitting session with a
    file within the ceiling, it leaves the component's state (status,
    captured media, verdict, error, history), the store and the inference
    requests in flight as they are and starts one more read of the file;
    with a file over the ceiling it moves the session to Failed with the
    oversize message and starts nothing. *)
Theorem second_submission_while_submitting actions s file w :
  run quota actions (load (initial s)) = Some w ->
  status (app w) = ANALYZING ->
  upload_rendered w = false /\
  retry_rendered w = false /\
  (File.size file <= MAX_SIZE ->
     let w' := processFile file w in
     app w' = app w /\
     storage w' = storage w /\
     in_flight (pending w') = in_flight (pending w) /\
     pending w' = pending w ++ [Reading file (history (app w))] /\
     log w' = log w ++ [ReadAsDataURL file]) /\
  (File.size file > MAX_SIZE ->
     let w' := processFile file w in
     status (app w') = ERROR /\
     error (app w') = Some too_large_text /\
     currentFile (app w') = currentFile (app w) /\
     pending w' = pending w /\
     log w' = log w).
Proof.
  intros Hrun Hst.
  assert (Hclean : submitting_clean w).
  { eapply run_submitting_clean; [|eassumption].
    unfold submitting_clean, load, initial. simpl.
    destruct s as [[saved|raw]|]; try destruct (String.eqb raw "");
      simpl; discriminate. }
  destruct (Hclean Hst) as [Herr Hres].
  split; [unfold upload_rendered; rewrite Hst; now destruct (activeTab (app w))|].
  split; [unfold retry_rendered; rewrite Hst; now destruct (activeTab (app w))|].
  split.
  - intros Hsize w'. subst w'. rewrite processFile_accepts by assumption.
    setters. repeat split.
    + destruct (app w); simpl in *. now subst.
    + rewrite in_flight_app. simpl. now rewrite app_nil_r.
  - intros Hsize w'. subst w'.
    destruct (processFile_rejects file w Hsize)
      as (H1 & H2 & H3 & H4 & H5).
    auto.
Qed.

End WithStore.

(** * Instances and counterexamples *)

Ltac by_computation :=
  first [ reflexivity | vm_compute; reflexivity | vm_compute; discriminate | lia ].

Lemma classify_authentication_and_fallback_witness :
  (classify (Error "Request failed: 403 Forbidden") = Authentication /\
   getFriendlyErrorMessage (Error "Request failed: 403 Forbidden") = msg_auth) /\
  (classify (Error "disk on fire") = Unknown /\
   getFriendlyErrorMessage (Error "disk on fire") = msg_unknown) /\
  (classify None = Unknown /\ getFriendlyErrorMessage None = msg_unknown) /\
  (classify (Some {| message := None |}) = Unknown /\
   getFriendlyErrorMessage (Some {| message := None |}) = msg_unknown).
Proof.
  destruct classify_authentication_and_fallback as (Hauth & Hunmatched & Hsilent & _).
  split; [apply Hauth; reflexivity|].
  split; [apply Hunmatched; intros c; destruct c; reflexivity|].
  split; apply Hsilent; reflexivity.
Defined.

Lemma classify_earliest_match_witness :
  matches "503 after 400" InvalidMedia = true /\
  matches "503 after 400" ServiceOverloaded = true /\
  classify (Error "503 after 400") = InvalidMedia.
Proof.
  split; [reflexivity|]. split; [reflexivity|].
  destruct classify_earliest_match as (_ & _ & Hfirst & _).
  apply (Hfirst (Error "503 after 400") InvalidMedia eq_refl
           [Authentication]
           [ServiceOverloaded; NetworkUnavailable; FileTooLarge; MalformedResponse]
           eq_refl).
  intros c' [<-|[]]. reflexivity.
Defined.

Lemma oversize_rejected_before_read_witness :
  File.size huge > MAX_SIZE /\
  status (app (processFile huge (initial None))) = ERROR /\
  error (app (processFile huge (initial None))) = Some too_large_text /\
  log (processFile huge (initial None)) = [] /\
  pending (processFile huge (initial None)) = [].
Proof.
  assert (Hsize : File.size huge > MAX_SIZE) by by_computation.
  split; [exact Hsize|].
  destruct (oversize_rejected_before_read huge (initial None) Hsize)
    as (Hst & Herr & _ & Hlog & Hpen & _).
  repeat split; assumption.
Defined.

(** C3, as stated, at the ceiling itself: a file of exactly 20 MiB is not
    refused; the session is Submitting and the file is being read. *)
Lemma ceiling_itself_is_read :
  File.size brim >= MAX_SIZE /\
  status (app (processFile brim (initial None))) = ANALYZING /\
  error (app (processFile brim (initial None))) = None /\
  reads (log (processFile brim (initial None))) = [brim] /\
  pending (processFile brim (initial None)) = [Reading brim []].
Proof.
  split; [by_computation|]. repeat split.
Qed.

Lemma append_retries_once_elided_witness :
  let item := newItem photo_media likely_synthetic 200 200 in
  let w' := analyze_resolved (quota_chars 4) photo_media [older_record]
              likely_synthetic 200 200 (initial None) in
  quota_chars 4 [item; older_record] = false /\
  quota_chars 4 [itemWithoutImage item; older_record] = true /\
  writes (log w') =
    [([item; older_record], false); ([itemWithoutImage item; older_record], true)] /\
  status (app w') = COMPLETED /\
  storage w' = Some (Json [itemWithoutImage item; older_record]) /\
  history (app w') = [itemWithoutImage item; older_record].
Proof.
  intros item w'.
  assert (Hfull : quota_chars 4 [item; older_record] = false) by reflexivity.
  assert (Hel : quota_chars 4 [itemWithoutImage item; older_record] = true)
    by reflexivity.
  destruct (append_retries_once_elided (quota_chars 4) photo_media [older_record]
              likely_synthetic 200 200 (initial None) Hfull)
    as (_ & Hwrites & Hst & _ & Htaken & _).
  destruct (Htaken Hel) as [Hsto Hhist].
  repeat split; assumption.
Defined.

Lemma double_failure_drops_from_memory_witness :
  let item := newItem photo_media likely_synthetic 200 200 in
  let w' := analyze_resolved quota_none photo_media [] likely_synthetic 200 200
              submitting_session in
  quota_none [item] = false /\
  quota_none [itemWithoutImage item] = false /\
  status (app w') = COMPLETED /\
  result (app w') = Some likely_synthetic /\
  history (app w') = [] /\
  storage w' = None.
Proof.
  intros item w'.
  destruct (double_failure_drops_from_memory quota_none photo_media []
              likely_synthetic 200 200 submitting_session eq_refl eq_refl)
    as (Hst & Hres & Hhist & Hsto & _).
  repeat split; assumption.
Defined.

Lemma remove_idempotent_and_persisted_witness :
  has_id "77" (history (app with_history)) = false /\
  history (app (deleteHistoryItem quota_all "77" with_history))
    = history (app with_history) /\
  quota_all (history (app (deleteHistoryItem quota_all "100" with_history))) = true /\
  storage (deleteHistoryItem quota_all "100" with_history)
    = Some (Json (history (app (deleteHistoryItem quota_all "100" with_history)))) /\
  history (app (deleteHistoryItem quota_all "100" with_history)) = [older_record].
Proof.
  split; [reflexivity|].
  split.
  { destruct (remove_idempotent_and_persisted quota_all "77" with_history)
      as (Habsent & _).
    apply Habsent. reflexivity. }
  split; [reflexivity|].
  split; [|reflexivity].
  destruct (remove_idempotent_and_persisted quota_all "100" with_history)
    as (_ & _ & _ & _ & _ & Hpersisted).
  apply Hpersisted. reflexivity.
Defined.




Lemma encode_strips_envelope_witness :
  File.size photo <= MAX_SIZE /\
  File.name photo = "photo.png" /\
  exists w' uf,
    run quota_all [SubmitFile photo; Complete 0 (Loaded "data:image/jpeg;base64,AAAA")]
      (initial None) = Some w' /\
    currentFile (app w') = Some uf /\
    UploadedFile.previewUrl uf = "data:image/jpeg;base64,AAAA" /\
    UploadedFile.base64 uf = Some "AAAA" /\
    UploadedFile.mimeType uf = "image/jpeg".
Proof.
  assert (Hsize : File.size photo <= MAX_SIZE) by by_computation.
  split; [exact Hsize|]. split; [reflexivity|].
  destruct (encode_strips_envelope quota_all photo "image/jpeg" "AAAA" (initial None)
              Hsize eq_refl eq_refl eq_refl eq_refl)
    as (w' & uf & Hrun & Hcf & _ & Hprev & Hb64 & Hmime & _).
  exists w', uf. rewrite Hmime in Hprev.
  repeat split; assumption.
Defined.

Lemma retry_rereads_captured_file_witness :
  status (app failed_session) = ERROR /\
  error (app failed_session) = Some msg_network /\
  currentFile (app failed_session) = Some photo_media /\
  reads (log (retry failed_session)) = [photo; photo] /\
  exists w2,
    complete quota_all 0 (Loaded photo_url) (retry failed_session) = Some w2 /\
    currentFile (app w2) = Some photo_media /\
    submissions (log w2) = [(Some "AAAA", "image/jpeg"); (Some "AAAA", "image/jpeg")].
Proof.
  assert (Hsize : File.size (UploadedFile.file photo_media) <= MAX_SIZE)
    by by_computation.
  destruct (retry_rereads_captured_file quota_all failed_session photo_media "AAAA"
              eq_refl eq_refl Hsize eq_refl eq_refl eq_refl eq_refl eq_refl eq_refl)
    as (_ & _ & _ & Hreads & _ & _ & w2 & Hdone & Hcf & Hsub).
  split; [reflexivity|]. split; [reflexivity|]. split; [reflexivity|].
  split; [exact Hreads|].
  exists w2. repeat split; assumption.
Defined.

(** C1, as stated, on a session that failed for lack of a connection: Retry
    reads the file a second time and submits nothing until that read is
    done; when the read fails, the captured payload is not submitted at all
    and the session is Failed on the read. *)
Lemma retry_reads_and_encodes_again :
  status (app failed_session) = ERROR /\
  currentFile (app failed_session) = Some photo_media /\
  reads (log failed_session) = [photo] /\
  submissions (log failed_session) = [(Some "AAAA", "image/jpeg")] /\
  reads (log (retry failed_session)) = [photo; photo] /\
  pending (retry failed_session) = [Reading photo []] /\
  submissions (log (retry failed_session)) = [(Some "AAAA", "image/jpeg")] /\
  (let w := after quota_all [Retry; Complete 0 ReadFailed] failed_session in
   status (app w) = ERROR /\
   error (app w) = Some "Failed to read file. Please try another file." /\
   submissions (log w) = [(Some "AAAA", "image/jpeg")]).
Proof.
  repeat split.
Qed.

Lemma second_submission_while_submitting_witness :
  run quota_all [SubmitFile photo; Complete 0 (Loaded photo_url)] (initial None)
    = Some submitting_session /\
  status (app submitting_session) = ANALYZING /\
  File.size clip <= MAX_SIZE /\
  File.size huge > MAX_SIZE /\
  upload_rendered submitting_session = false /\
  retry_rendered submitting_session = false /\
  app (processFile clip submitting_session) = app submitting_session /\
  pending (processFile clip submitting_session)
    = pending submitting_session ++ [Reading clip []] /\
  status (app (processFile huge submitting_session)) = ERROR.
Proof.
  assert (Hrun : run quota_all [SubmitFile photo; Complete 0 (Loaded photo_url)]
                   (initial None) = Some submitting_session) by reflexivity.
  assert (Hclip : File.size clip <= MAX_SIZE) by by_computation.
  assert (Hhuge : File.size huge > MAX_SIZE) by by_computation.
  destruct (second_submission_while_submitting quota_all _ None clip
              submitting_session Hrun eq_refl)
    as (Hup & Hretry & Hsmall & _).
  destruct (second_submission_while_submitting quota_all _ None huge
              submitting_session Hrun eq_refl)
    as (_ & _ & _ & Hbig).
  destruct (Hsmall Hclip) as (Happ & _ & _ & Hpen & _).
  destruct (Hbig Hhuge) as (Hst & _).
  repeat split; assumption.
Defined.

(** C2, as stated, on a session that is Submitting the photo: a second
    call with an oversize file ends the session as Failed at once, and a
    second call with another file, once that file is read, replaces the
    captured media and puts a second inference request in flight. *)
Lemma second_submission_is_not_a_noop :
  status (app submitting_session) = ANALYZING /\
  currentFile (app submitting_session) = Some photo_media /\
  in_flight (pending submitting_session) = [photo_media] /\
  status (app (processFile huge submitting_session)) = ERROR /\
  pending (processFile clip submitting_session)
    = [Analyzing photo_media []; Reading clip []] /\
  (let w' := after quota_all
               [SubmitFile clip; Complete 1 (Loaded "data:video/mp4;base64,DDDD")]
               submitting_session in
   let clip_media :=
     {| UploadedFile.file := clip;
        UploadedFile.previewUrl := "data:video/mp4;base64,DDDD";
        UploadedFile.base64 := Some "DDDD";
        UploadedFile.mimeType := "video/mp4" |} in
   currentFile (app w') = Some clip_media /\
   in_flight (pending w') = [photo_media; clip_media]).
Proof.
  repeat split.
Qed.

(** The whole page on the specification's scenarios: a photo within the
    ceiling is analysed and archived; an oversize file fails at once. *)
Example session_completes_and_archives :
  let w := after quota_all
             [SubmitFile photo; Complete 0 (Loaded photo_url);
              Complete 0 (Resolved likely_synthetic 1700000000000 1700000000001)]
             (initial None) in
  status (app w) = COMPLETED /\
  result (app w) = Some likely_synthetic /\
  map HistoryItem.id (history (app w)) = ["1700000000000"] /\
  storage w = Some (Json (history (app w))) /\
  pending w = [].
Proof.
  repeat split.
Qed.

Example session_refuses_oversize :
  let w := after quota_all [SubmitFile huge] (initial None) in
  status (app w) = ERROR /\
  error (app w) = Some too_large_text /\
  history (app w) = [] /\ log w = [] /\ pending w = [].
Proof.
  repeat split.
Qed.

(** * Further properties of the page *)

(** ** Icons *)

Lemma prefix_app_l (a b s : string) :
  String.prefix (a ++ b) s = true -> String.prefix a s = true.
Proof.
  revert s. induction a as [|c a IH]; intros s; [now destruct s|].
  destruct s as [|c' s]; simpl; [discriminate|].
  destruct (ascii_dec c c'); [apply IH|discriminate].
Qed.

Lemma includes_app_l (s a b : string) :
  includes s (a ++ b) = true -> includes s a = true.
Proof.
  induction s as [|c s IH]; cbn [includes]; rewrite !orb_true_iff.
  - intros [H|H]; [left; eapply prefix_app_l; eassumption|discriminate].
  - intros [H|H]; [left; eapply prefix_app_l; eassumption|right; auto].
Qed.

Lemma classify_oversize_text (e : option RawError) :
  classify e = FileTooLarge -> includes (message_text e) "File too large" = true.
Proof.
  unfold classify.
  repeat match goal with
         | |- context [if ?b then _ else _] => destruct b eqn:?
         end; try discriminate.
  reflexivity.
Qed.

(** The icon beside a classified error follows its category: a key for
    Authentication, the offline sign for NetworkUnavailable, the crashed
    server for ServiceOverloaded, the plain alert for InvalidMedia,
    MalformedResponse and Unknown.  An oversize error echoes the raw text,
    so its icon is the file warning unless that text carries the word
    Authentication or Network, which are looked for first. *)
Theorem icon_follows_category (e : option RawError) :
  getErrorIcon (getFriendlyErrorMessage e) =
    match classify e with
    | Authentication => KeyRound
    | NetworkUnavailable => WifiOff
    | ServiceOverloaded => ServerCrash
    | FileTooLarge =>
        if includes (message_text e) "Authentication" then KeyRound
        else if includes (message_text e) "Network" then WifiOff
        else FileWarning
    | InvalidMedia | MalformedResponse | Unknown => AlertCircle
    end.
Proof.
  rewrite friendly_message_by_category.
  destruct (classify e) eqn:Hc; try reflexivity.
  cbn [category_message]. unfold getErrorIcon.
  apply classify_oversize_text in Hc.
  rewrite (includes_app_l (message_text e) "File" " too large" Hc).
  reflexivity.
Qed.

(** ** Record ids *)

Lemma toString_inj (a b : Z) : toString a = toString b -> a = b.
Proof.
  unfold toString. intros H.
  assert (Hparse : forall z,
            NilZero.int_of_string (NilZero.string_of_int (Z.to_int z))
            = Some (Z.to_int z)).
  { intros z. apply NilZero.isi; destruct z; simpl; try discriminate;
      intros [= E]; now apply DecimalPos.Unsigned.to_uint_nonnil in E. }
  assert (E : Some (Z.to_int a) = Some (Z.to_int b))
    by now rewrite <- !Hparse, H.
  injection E as E.
  rewrite <- (DecimalZ.of_to a), <- (DecimalZ.of_to b). now rewrite E.
Qed.

(** ** Reading the data URL *)

Lemma split_with_sep sep s :
  has_char sep s = true -> exists a b rest, split sep s = a :: b :: rest.
Proof.
  induction s as [|c s IH]; simpl; [discriminate|].
  destruct (Ascii.eqb c sep); simpl.
  - intros _. destruct (split sep s) as [|b rest] eqn:E.
    + now apply split_nonempty in E.
    + now exists "", b, rest.
  - intros H. destruct (IH H) as (a & b & rest & ->).
    now exists (String c a), b, rest.
Qed.

Lemma split_hd_app sep (a b : string) :
  has_char sep a = false ->
  hd "" (split sep (a ++ b)) = (a ++ hd "" (split sep b))%string.
Proof.
  induction a as [|c a IH]; simpl; [reflexivity|].
  intros H. apply orb_false_iff in H as [Hc Ha]. rewrite Hc.
  specialize (IH Ha).
  destruct (split sep (a ++ b)) as [|seg segs] eqn:E.
  - now apply split_nonempty in E.
  - simpl in *. now rewrite IH.
Qed.

(** [reader.onload] goes on to the inference call exactly when the text
    before the first comma of the reader's result has a colon.  Without
    one the handler fails on [meta.split(':')[1]]: the session is Failed
    with the generic message, no media is captured and nothing is
    submitted.  With one the result becomes the preview of the captured
    media, one request is submitted with the media's payload and content
    type, and the status is left as it is. *)
Theorem reader_result_needs_colon file captured r w :
  let w' := reader_onload file captured r w in
  (has_char ":" (hd "" (split "," r)) = false ->
     status (app w') = ERROR /\
     error (app w') = Some msg_unknown /\
     currentFile (app w') = currentFile (app w) /\
     submissions (log w') = submissions (log w) /\
     pending w' = pending w) /\
  (has_char ":" (hd "" (split "," r)) = true ->
     exists uf,
       currentFile (app w') = Some uf /\
       UploadedFile.file uf = file /\
       UploadedFile.previewUrl uf = r /\
       status (app w') = status (app w) /\
       pending w' = pending w ++ [Analyzing uf captured] /\
       submissions (log w') =
         submissions (log w) ++ [(UploadedFile.base64 uf, UploadedFile.mimeType uf)]).
Proof.
  intros w'. subst w'. unfold reader_onload. split; intros Hcolon.
  - rewrite (split_no_sep _ _ Hcolon). cbn [nth_error]. setters.
    rewrite submissions_app. simpl. rewrite app_nil_r.
    repeat split; reflexivity.
  - destruct (split_with_sep _ _ Hcolon) as (a & b & rest & ->).
    cbn [nth_error]. setters. eexists. split; [reflexivity|].
    cbn [UploadedFile.file UploadedFile.previewUrl UploadedFile.base64
         UploadedFile.mimeType].
    rewrite submissions_app. repeat split; reflexivity.
Qed.

(** The content type taken from a data URL is the declared type without
    its parameters: for [data:<mime>;<params>,<payload>] the media gets
    [<mime>] and [<payload>], whatever follows the first semicolon. *)
Theorem content_type_drops_parameters file captured mime params payload w :
  has_char "," mime = false -> has_char ":" mime = false ->
  has_char ";" mime = false ->
  has_char "," params = false -> has_char "," payload = false ->
  let r := ("data:" ++ mime ++ ";" ++ params ++ "," ++ payload)%string in
  let w' := reader_onload file captured r w in
  currentFile (app w') =
    Some {| UploadedFile.file := file; UploadedFile.previewUrl := r;
            UploadedFile.base64 := Some payload; UploadedFile.mimeType := mime |} /\
  submissions (log w') = submissions (log w) ++ [(Some payload, mime)].
Proof.
  intros Hcomma Hcolon Hsemi Hparams Hpay r w'. subst w'.
  unfold reader_onload.
  assert (Hr : r = (("data:" ++ mime ++ ";" ++ params) ++ String "," payload)%string).
  { subst r. simpl. do 5 f_equal. rewrite !append_assoc. reflexivity. }
  assert (Hparts : split "," r = [("data:" ++ mime ++ ";" ++ params)%string; payload]).
  { rewrite Hr, split_at_sep, (split_no_sep _ payload) by
      (try assumption; simpl; rewrite has_char_app, Hcomma; simpl; assumption).
    reflexivity. }
  rewrite Hparts. cbn [hd nth_error].
  change ("data:" ++ mime ++ ";" ++ params)%string
    with ("data" ++ String ":" (mime ++ String ";" params))%string.
  rewrite split_at_sep by reflexivity.
  destruct (split ":" (mime ++ String ";" params)) as [|declared more] eqn:E;
    [now apply split_nonempty in E|].
  assert (Hdeclared : declared
            = (mime ++ String ";" (hd "" (split ":" params)))%string).
  { change declared with (hd "" (declared :: more)). rewrite <- E.
    rewrite split_hd_app by assumption. f_equal.
    change (String ";" params) with (";" ++ params)%string.
    now rewrite split_hd_app by reflexivity. }
  cbn [nth_error]. rewrite Hdeclared, split_at_sep by assumption.
  cbn [hd]. setters. rewrite submissions_app. split; reflexivity.
Qed.

Section WholePage.

Variable quota : list HistoryItem.t -> bool.

(** ** What a step leaves alone *)

Lemma addToHistory_session h f a t_id t_ts w :
  let w' := addToHistory quota h f a t_id t_ts w in
  activeTab (app w') = activeTab (app w) /\
  status (app w') = status (app w) /\
  currentFile (app w') = currentFile (app w) /\
  result (app w') = result (app w) /\
  error (app w') = error (app w) /\
  pending w' = pending w.
Proof.
  intros w'. subst w'.
  destruct (quota (newItem f a t_id t_ts :: h)) eqn:E1;
    [rewrite addToHistory_full by assumption|
     destruct (quota (itemWithoutImage (newItem f a t_id t_ts) :: h)) eqn:E2;
     [rewrite addToHistory_elided by assumption
     |rewrite addToHistory_dropped by assumption]];
    setters; repeat split; reflexivity.
Qed.

Lemma processFile_store f w :
  history (app (processFile f w)) = history (app w) /\
  storage (processFile f w) = storage w /\
  writes (log (processFile f w)) = writes (log w).
Proof.
  unfold processFile. destruct (File.size f >? MAX_SIZE); setters;
    rewrite ?writes_app; simpl; rewrite ?app_nil_r; repeat split; reflexivity.
Qed.

Lemma reader_onload_store f h r w :
  history (app (reader_onload f h r w)) = history (app w) /\
  storage (reader_onload f h r w) = storage w /\
  writes (log (reader_onload f h r w)) = writes (log w).
Proof.
  unfold reader_onload.
  destruct (nth_error (split ":" (hd "" (split "," r))) 1); setters;
    rewrite ?writes_app; simpl; rewrite ?app_nil_r; repeat split; reflexivity.
Qed.

Lemma quiet_step a w w' :
  touches_history a = false ->
  step quota a w = Some w' ->
  history (app w') = history (app w) /\
  storage w' = storage w /\
  writes (log w') = writes (log w).
Proof.
  intros Hquiet Hstep.
  destruct a as [f| | |item|id|k o]; simpl in Hstep; try discriminate.
  - injection Hstep as <-. apply processFile_store.
  - injection Hstep as <-. unfold retry.
    destruct (currentFile (app w)); [apply processFile_store|auto].
  - injection Hstep as <-. unfold handleReset. setters. auto.
  - injection Hstep as <-. unfold loadHistoryItem. setters. auto.
  - unfold complete in Hstep.
    destruct (nth_error (pending w) k) as [[f h|u h]|]; [| |discriminate];
      destruct o as [r| |an t_id t_ts|e]; try discriminate;
      injection Hstep as <-.
    + apply (reader_onload_store f h r (settle k w)).
    + unfold reader_onerror. setters. auto.
    + unfold analyze_rejected. setters.
      rewrite writes_app. simpl. rewrite app_nil_r. auto.
Qed.

(** Only a delivered verdict and a deletion touch the history: every other
    step (a submission, a retry, a reset, the selection of a record, a
    finished or failed read, a failed inference call) leaves the in-memory
    list and the stored value as they are and makes no [setItem] call. *)
Theorem history_touched_only_by_verdict_or_delete a w w' :
  touches_history a = false ->
  step quota a w = Some w' ->
  history (app w') = history (app w) /\
  storage w' = storage w /\
  writes (log w') = writes (log w).
Proof.
  exact (quiet_step a w w').
Qed.

(** ** The list in memory and the list in the store *)

Lemma addToHistory_in_sync h f a t_id t_ts w :
  in_sync w -> in_sync (addToHistory quota h f a t_id t_ts w).
Proof.
  unfold in_sync. intros Hsync.
  destruct (quota (newItem f a t_id t_ts :: h)) eqn:E1;
    [rewrite addToHistory_full by assumption|
     destruct (quota (itemWithoutImage (newItem f a t_id t_ts) :: h)) eqn:E2;
     [rewrite addToHistory_elided by assumption
     |rewrite addToHistory_dropped by assumption]];
    setters; simpl; auto.
Qed.

Lemma load_in_sync s : in_sync (load (initial s)).
Proof.
  unfold in_sync, load, initial. simpl.
  destruct s as [[saved|raw]|]; try destruct (String.eqb raw ""); reflexivity.
Qed.

(** What the page lists is what the store holds.  This is so after the
    load at start and stays so through every step, as long as the write of
    each deletion is taken by the store (an append that the store refuses
    twice changes neither side); so reloading the page shows the same
    list. *)
Theorem listed_is_persisted :
  (forall s, in_sync (load (initial s))) /\
  (forall a w w',
     in_sync w -> delete_accepted quota a w -> step quota a w = Some w' ->
     in_sync w') /\
  (forall w, in_sync w ->
     history (app (load (initial (storage w)))) = history (app w)).
Proof.
  split; [exact load_in_sync|]. split.
  - intros a w w' Hsync Hacc Hstep.
    destruct (touches_history a) eqn:Ht.
    + destruct a as [f| | |item|id|k o]; try discriminate; simpl in Hstep.
      * injection Hstep as <-. rewrite deleteHistoryItem_eq.
        simpl in Hacc. rewrite Hacc. unfold in_sync. setters. reflexivity.
      * unfold complete in Hstep.
        destruct (nth_error (pending w) k) as [[f h|u h]|]; [| |discriminate];
          destruct o as [r| |an t_id t_ts|e]; try discriminate;
          injection Hstep as <-.
        unfold analyze_resolved. apply addToHistory_in_sync.
        unfold in_sync in *. setters. assumption.
    + destruct (quiet_step a w w' Ht Hstep) as (Hh & Hs & _).
      unfold in_sync in *. now rewrite Hh, Hs.
  - intros w Hsync. rewrite <- Hsync. unfold load, initial. simpl.
    destruct (storage w) as [[saved|raw]|]; try destruct (String.eqb raw "");
      reflexivity.
Qed.

(** ** Status, verdict and error *)

Lemma consistent_transfer w w' :
  status (app w') = status (app w) ->
  error (app w') = error (app w) ->
  result (app w') = result (app w) ->
  session_consistent w -> session_consistent w'.
Proof.
  unfold session_consistent. intros -> -> ->. auto.
Qed.

Lemma failed_consistent w m :
  status (app w) = ERROR -> error (app w) = Some m -> m <> "" ->
  session_consistent w.
Proof.
  unfold session_consistent. intros -> Herr Hm. eauto.
Qed.

Lemma processFile_consistent f w : session_consistent (processFile f w).
Proof.
  unfold processFile. destruct (File.size f >? MAX_SIZE).
  - eapply failed_consistent; setters; try reflexivity.
    apply friendly_message_nonempty.
  - unfold session_consistent. setters. auto.
Qed.

Lemma step_consistent a w w' :
  session_consistent w -> step quota a w = Some w' -> session_consistent w'.
Proof.
  intros Hc Hstep.
  destruct a as [f| | |item|id|k o]; simpl in Hstep.
  - injection Hstep as <-. apply processFile_consistent.
  - injection Hstep as <-. unfold retry.
    destruct (currentFile (app w)); [apply processFile_consistent|assumption].
  - injection Hstep as <-. unfold session_consistent, handleReset. setters. auto.
  - injection Hstep as <-. unfold session_consistent, loadHistoryItem. setters.
    discriminate.
  - injection Hstep as <-. rewrite deleteHistoryItem_eq.
    eapply consistent_transfer; [| | |eassumption]; reflexivity.
  - unfold complete in Hstep.
    destruct (nth_error (pending w) k) as [[f h|u h]|]; [| |discriminate];
      destruct o as [r| |an t_id t_ts|e]; try discriminate;
      injection Hstep as <-.
    + unfold reader_onload.
      destruct (nth_error (split ":" (hd "" (split "," r))) 1).
      * eapply consistent_transfer; [| | |eassumption]; reflexivity.
      * eapply failed_consistent; setters; try reflexivity.
        apply friendly_message_nonempty.
    + eapply failed_consistent; unfold reader_onerror; setters;
        try reflexivity. discriminate.
    + unfold analyze_resolved.
      destruct (addToHistory_session h u an t_id t_ts
                  (setStatus COMPLETED (setResult (Some an) (settle k w))))
        as (_ & Hst & _ & Hres & _).
      unfold session_consistent. rewrite Hst, Hres. setters. discriminate.
    + eapply failed_consistent; unfold analyze_rejected; setters;
        try reflexivity. apply friendly_message_nonempty.
Qed.

Lemma run_consistent actions w w' :
  session_consistent w -> run quota actions w = Some w' -> session_consistent w'.
Proof.
  revert w. induction actions as [|a rest IH]; intros w Hc Hrun; simpl in Hrun.
  - now injection Hrun as <-.
  - destruct (step quota a w) as [w1|] eqn:E; [|discriminate].
    eapply IH; [|eassumption]. eapply step_consistent; eassumption.
Qed.

(** Whatever the page and the browser do after the start, the status never
    lacks what it announces: an idle or Submitting session has neither
    verdict nor error, a Completed one has a verdict, a Failed one has a
    non-empty message.  So a Failed session that holds its media shows
    the retry button, and a Completed one that holds its media shows the
    verdict. *)
Theorem status_has_its_data actions s w :
  run quota actions (load (initial s)) = Some w ->
  session_consistent w /\
  (status (app w) = ERROR -> activeTab (app w) = analyze ->
   currentFile (app w) <> None -> retry_rendered w = true) /\
  (status (app w) = COMPLETED -> activeTab (app w) = analyze ->
   currentFile (app w) <> None -> result_rendered w = true).
Proof.
  intros Hrun.
  assert (Hc : session_consistent w).
  { eapply run_consistent; [|eassumption].
    unfold session_consistent, load, initial. simpl.
    destruct s as [[saved|raw]|]; try destruct (String.eqb raw ""); simpl; auto. }
  split; [assumption|].
  unfold session_consistent in Hc.
  split; intros Hst Htab Hcf.
  - rewrite Hst in Hc. destruct Hc as (m & Herr & Hm).
    unfold retry_rendered. rewrite Hst, Htab, Herr.
    destruct (currentFile (app w)); [|congruence].
    apply negb_true_iff, String.eqb_neq. assumption.
  - rewrite Hst in Hc.
    unfold result_rendered, active_view_rendered. rewrite Hst, Htab.
    destruct (result (app w)); [|congruence].
    destruct (currentFile (app w)); [reflexivity|congruence].
Qed.

(** ** Ids and deletion *)

(** Ids are clock readings in decimal, and different readings give
    different ids: deleting the record made at reading [t] removes the
    records whose id was taken at [t], all of them, and no record whose id
    was taken at another reading. *)
Theorem delete_spares_other_readings t w f a t' ts :
  In (newItem f a t' ts) (history (app (deleteHistoryItem quota (toString t) w)))
  <-> In (newItem f a t' ts) (history (app w)) /\ t' <> t.
Proof.
  rewrite deleteHistoryItem_eq. setters. rewrite filter_In.
  unfold keep. cbn [HistoryItem.id newItem].
  rewrite negb_true_iff, String.eqb_neq.
  split; intros [Hin Hne]; split; try assumption.
  - intros ->. now apply Hne.
  - intros Heq. now apply Hne, toString_inj.
Qed.

(** ** A whole submission *)

Lemma submit_and_read file mime payload rest w :
  File.size file <= MAX_SIZE ->
  has_char "," mime = false -> has_char ":" mime = false ->
  has_char ";" mime = false -> has_char "," payload = false ->
  let uf := {| UploadedFile.file := file;
               UploadedFile.previewUrl := envelope mime ++ payload;
               UploadedFile.base64 := Some payload;
               UploadedFile.mimeType := mime |} in
  run quota (SubmitFile file ::
             Complete (length (pending w)) (Loaded (envelope mime ++ payload)) :: rest) w
  = run quota rest
      {| app := app (setCurrentFile (Some uf)
                       (setResult None (setError None (setStatus ANALYZING w))));
         storage := storage w;
         pending := pending w ++ [Analyzing uf (history (app w))];
         log := log w ++ [ReadAsDataURL file; AnalyzeMedia (Some payload) mime] |}.
Proof.
  intros Hsize Hcomma Hcolon Hsemi Hpay uf.
  cbn [run step]. rewrite processFile_accepts by assumption.
  unfold complete. setters. rewrite nth_error_last, remove_nth_last.
  rewrite reader_onload_envelope by assumption. setters.
  now rewrite <- app_assoc.
Qed.

(** A deletion made while an analysis is in flight is undone when the
    verdict arrives: [addToHistory] builds the new list from the history
    of the render in which the file was submitted, so with the write taken
    the page lists, and the store holds, the new record followed by the
    list as it was at submission, the deleted record included. *)
Theorem deletion_during_analysis_undone file mime payload a t_id t_ts id w :
  File.size file <= MAX_SIZE ->
  has_char "," mime = false -> has_char ":" mime = false ->
  has_char ";" mime = false -> has_char "," payload = false ->
  let uf := {| UploadedFile.file := file;
               UploadedFile.previewUrl := envelope mime ++ payload;
               UploadedFile.base64 := Some payload;
               UploadedFile.mimeType := mime |} in
  let n := length (pending w) in
  quota (newItem uf a t_id t_ts :: history (app w)) = true ->
  exists w1 w2,
    run quota [SubmitFile file; Complete n (Loaded (envelope mime ++ payload));
               DeleteHistory id] w = Some w1 /\
    has_id id (history (app w1)) = false /\
    complete quota n (Resolved a t_id t_ts) w1 = Some w2 /\
    history (app w2) = newItem uf a t_id t_ts :: history (app w) /\
    storage w2 = Some (Json (history (app w2))).
Proof.
  intros Hsize Hcomma Hcolon Hsemi Hpay uf n Hq. subst n.
  rewrite submit_and_read by assumption. fold uf.
  cbn [run step]. rewrite deleteHistoryItem_eq. setters.
  eexists. eexists. split; [reflexivity|]. setters.
  split; [apply has_id_filter|].
  unfold complete. setters. rewrite nth_error_last, remove_nth_last.
  split; [reflexivity|].
  unfold analyze_resolved. rewrite addToHistory_full by assumption.
  setters. split; reflexivity.
Qed.

(** Reset does not call off a request in flight.  When its verdict arrives
    after the reset, the session becomes Completed with that verdict but
    without media, so the analyze tab shows neither the upload area nor
    the verdict; and with the write taken the analysis is archived at the
    head of the list its submission saw. *)
Theorem verdict_after_reset k u h a t_id t_ts w :
  nth_error (pending w) k = Some (Analyzing u h) ->
  exists w',
    run quota [Reset; Complete k (Resolved a t_id t_ts)] w = Some w' /\
    status (app w') = COMPLETED /\
    result (app w') = Some a /\
    currentFile (app w') = None /\
    upload_rendered w' = false /\
    active_view_rendered w' = false /\
    result_rendered w' = false /\
    (quota (newItem u a t_id t_ts :: h) = true ->
       history (app w') = newItem u a t_id t_ts :: h /\
       storage w' = Some (Json (newItem u a t_id t_ts :: h))).
Proof.
  intros Hk. cbn [run step]. unfold complete, handleReset. setters.
  rewrite Hk. eexists. split; [reflexivity|].
  unfold analyze_resolved.
  match goal with
  | |- context [addToHistory quota h u a t_id t_ts ?w0] =>
      destruct (addToHistory_session h u a t_id t_ts w0)
        as (Htab & Hst & Hcf & Hres & _ & _);
      set (w' := addToHistory quota h u a t_id t_ts w0) in *
  end.
  setters.
  split; [assumption|]. split; [assumption|]. split; [assumption|].
  split; [unfold upload_rendered; rewrite Hst; now destruct (activeTab (app w'))|].
  split; [unfold active_view_rendered; rewrite Hcf;
          now destruct (activeTab (app w')), (status (app w'))|].
  split; [unfold result_rendered, active_view_rendered; rewrite Hcf, Hst;
          now destruct (result (app w')), (activeTab (app w'))|].
  intros Hq. subst w'. rewrite addToHistory_full by assumption. setters.
  split; reflexivity.
Qed.

(** A first submission that fails before any media is captured, by an
    oversize file or by a read that fails, leaves the analyze tab without
    content: the status is Failed and the message is set, but with no
    current file the page renders neither the upload area nor the error
    panel with its retry button. *)
Theorem failure_before_capture_shows_nothing file w :
  currentFile (app w) = None ->
  (File.size file > MAX_SIZE ->
     let w' := processFile file w in
     status (app w') = ERROR /\
     error (app w') = Some too_large_text /\
     upload_rendered w' = false /\
     active_view_rendered w' = false /\
     retry_rendered w' = false) /\
  (File.size file <= MAX_SIZE ->
     exists w',
       run quota [SubmitFile file; Complete (length (pending w)) ReadFailed] w
         = Some w' /\
       status (app w') = ERROR /\
       error (app w') = Some "Failed to read file. Please try another file." /\
       upload_rendered w' = false /\
       active_view_rendered w' = false /\
       retry_rendered w' = false).
Proof.
  intros Hcf. split.
  - intros Hsize w'.
    destruct (processFile_rejects file w Hsize) as (Hst & Herr & Hcur & _).
    subst w'. rewrite Hcf in Hcur.
    unfold upload_rendered, active_view_rendered, retry_rendered.
    rewrite Hst, Hcur.
    repeat split; try assumption;
      now destruct (activeTab (app (processFile file w))).
  - intros Hsize. cbn [run step]. rewrite processFile_accepts by assumption.
    unfold complete. setters. rewrite nth_error_last, remove_nth_last.
    eexists. split; [reflexivity|].
    unfold reader_onerror, upload_rendered, active_view_rendered, retry_rendered.
    setters. rewrite Hcf.
    repeat split; now destruct (activeTab (app w)).
Qed.

(** A stored history that does not parse is shown as an empty list and
    left in the store at start, and is lost at the first analysis that
    completes: the write, once taken, replaces it with the list of that
    one record. *)
Theorem unparsable_history_replaced raw file mime payload a t_id t_ts :
  File.size file <= MAX_SIZE ->
  has_char "," mime = false -> has_char ":" mime = false ->
  has_char ";" mime = false -> has_char "," payload = false ->
  let uf := {| UploadedFile.file := file;
               UploadedFile.previewUrl := envelope mime ++ payload;
               UploadedFile.base64 := Some payload;
               UploadedFile.mimeType := mime |} in
  quota [newItem uf a t_id t_ts] = true ->
  let w0 := load (initial (Some (Malformed raw))) in
  history (app w0) = [] /\
  storage w0 = Some (Malformed raw) /\
  exists w',
    run quota [SubmitFile file; Complete 0 (Loaded (envelope mime ++ payload));
               Complete 0 (Resolved a t_id t_ts)] w0 = Some w' /\
    status (app w') = COMPLETED /\
    history (app w') = [newItem uf a t_id t_ts] /\
    storage w' = Some (Json [newItem uf a t_id t_ts]).
Proof.
  intros Hsize Hcomma Hcolon Hsemi Hpay uf Hq w0.
  assert (Hw0 : history (app w0) = [] /\ storage w0 = Some (Malformed raw) /\
                pending w0 = []).
  { subst w0. unfold load, initial. simpl.
    destruct (String.eqb raw ""); repeat split. }
  destruct Hw0 as (Hh & Hs & Hp).
  split; [assumption|]. split; [assumption|].
  change 0%nat with (length (@nil Task)) at 1. rewrite <- Hp.
  rewrite submit_and_read by assumption. fold uf.
  cbn [run step]. unfold complete. setters. rewrite Hp, Hh. cbn [app nth_error remove_nth List.app].
  eexists. split; [reflexivity|].
  unfold analyze_resolved. rewrite addToHistory_full by assumption.
  setters. repeat split.
Qed.

Lemma loadHistoryItem_view item w :
  let w2 := loadHistoryItem item w in
  currentFile (app w2) = Some
    {| UploadedFile.file :=
         {| File.name := HistoryItem.fileName item; File.size := 0;
            File.type := HistoryItem.fileType item |};
       UploadedFile.previewUrl := HistoryItem.previewUrl item;
       UploadedFile.base64 := Some "";
       UploadedFile.mimeType := HistoryItem.fileType item |} /\
  status (app w2) = COMPLETED /\
  result (app w2) = Some (HistoryItem.result item) /\
  result_rendered w2 = true /\
  retry_rendered w2 = false /\
  upload_rendered w2 = false.
Proof.
  unfold loadHistoryItem, result_rendered, active_view_rendered,
    retry_rendered, upload_rendered.
  setters. repeat split.
Qed.

(** An archived analysis can be opened again: selecting the record that an
    accepted append put first gives a Completed session with the verdict
    shown and no retry button; its media has the content type and the file
    name of the upload, an empty payload and a handle of zero bytes.  The
    preview is the upload's when the full record was stored, and the
    placeholder when it was stored without preview. *)
Theorem archived_record_reopens u h a t_id t_ts w :
  let item := newItem u a t_id t_ts in
  let w1 := analyze_resolved quota u h a t_id t_ts w in
  (quota (item :: h) = true \/ quota (itemWithoutImage item :: h) = true) ->
  exists first cf,
    hd_error (history (app w1)) = Some first /\
    let w2 := loadHistoryItem first w1 in
    currentFile (app w2) = Some cf /\
    status (app w2) = COMPLETED /\
    result (app w2) = Some a /\
    result_rendered w2 = true /\
    retry_rendered w2 = false /\
    upload_rendered w2 = false /\
    UploadedFile.mimeType cf = UploadedFile.mimeType u /\
    File.name (UploadedFile.file cf) = File.name (UploadedFile.file u) /\
    File.size (UploadedFile.file cf) = 0 /\
    UploadedFile.base64 cf = Some "" /\
    (quota (item :: h) = true -> media_preview cf = media_preview u) /\
    (quota (item :: h) = false -> media_preview cf = PreviewNotAvailable).
Proof.
  intros item w1 Hsome.
  assert (Hfirst : history (app w1) =
            (if quota (item :: h) then item else itemWithoutImage item) :: h).
  { subst w1. unfold analyze_resolved.
    destruct (quota (item :: h)) eqn:E1.
    - rewrite addToHistory_full by assumption. reflexivity.
    - destruct Hsome as [Hfalse|E2]; [discriminate|].
      rewrite addToHistory_elided by assumption. reflexivity. }
  clearbody w1. rewrite Hfirst. clear Hfirst Hsome. subst item.
  destruct (quota (newItem u a t_id t_ts :: h)).
  - destruct (loadHistoryItem_view (newItem u a t_id t_ts) w1)
      as (Hcf & Hst & Hres & Hshown & Hretry & Hup).
    eexists. eexists. split; [reflexivity|].
    cbv zeta. rewrite Hcf, Hst, Hres, Hshown, Hretry, Hup.
    repeat split; discriminate.
  - destruct (loadHistoryItem_view (itemWithoutImage (newItem u a t_id t_ts)) w1)
      as (Hcf & Hst & Hres & Hshown & Hretry & Hup).
    eexists. eexists. split; [reflexivity|].
    cbv zeta. rewrite Hcf, Hst, Hres, Hshown, Hretry, Hup.
    repeat split; discriminate.
Qed.

End WholePage.

(** * Instances of the further properties *)

Lemma reader_result_needs_colon_witness :
  has_char ":" (hd "" (split "," "AAAA")) = false /\
  status (app (reader_onload photo [] "AAAA" (initial None))) = ERROR /\
  submissions (log (reader_onload photo [] "AAAA" (initial None))) = [] /\
  has_char ":" (hd "" (split "," "data:")) = true /\
  (exists uf,
     currentFile (app (reader_onload photo [] "data:" (initial None))) = Some uf /\
     UploadedFile.previewUrl uf = "data:").
Proof.
  destruct (reader_result_needs_colon photo [] "AAAA" (initial None)) as (Hnone & _).
  destruct (Hnone eq_refl) as (Hst & _ & _ & Hsub & _).
  destruct (reader_result_needs_colon photo [] "data:" (initial None)) as (_ & Hsome).
  destruct (Hsome eq_refl) as (uf & Hcf & _ & Hurl & _).
  split; [reflexivity|]. split; [exact Hst|]. split; [exact Hsub|].
  split; [reflexivity|]. exists uf. split; assumption.
Defined.

Lemma content_type_drops_parameters_witness :
  let r := "data:text/plain;charset=utf-8;base64,SGk=" in
  currentFile (app (reader_onload photo [] r (initial None))) =
    Some {| UploadedFile.file := photo; UploadedFile.previewUrl := r;
            UploadedFile.base64 := Some "SGk="; UploadedFile.mimeType := "text/plain" |} /\
  submissions (log (reader_onload photo [] r (initial None)))
    = [(Some "SGk=", "text/plain")].
Proof.
  exact (content_type_drops_parameters photo [] "text/plain" "charset=utf-8;base64"
           "SGk=" (initial None) eq_refl eq_refl eq_refl eq_refl eq_refl).
Defined.

Lemma history_touched_only_by_verdict_or_delete_witness :
  touches_history (Complete 0 (Rejected (Error "Failed to fetch"))) = false /\
  step quota_all (Complete 0 (Rejected (Error "Failed to fetch"))) submitting_session
    = Some failed_session /\
  history (app failed_session) = history (app submitting_session) /\
  storage failed_session = storage submitting_session /\
  writes (log failed_session) = writes (log submitting_session).
Proof.
  split; [reflexivity|]. split; [reflexivity|].
  exact (history_touched_only_by_verdict_or_delete quota_all
           (Complete 0 (Rejected (Error "Failed to fetch")))
           submitting_session failed_session eq_refl eq_refl).
Defined.

Lemma with_history_in_sync : in_sync with_history.
Proof. reflexivity. Qed.

Lemma listed_is_persisted_witness :
  in_sync with_history /\
  delete_accepted quota_all (DeleteHistory "100") with_history /\
  in_sync (deleteHistoryItem quota_all "100" with_history) /\
  history (app (load (initial (storage with_history)))) = history (app with_history).
Proof.
  destruct (listed_is_persisted quota_all) as (_ & Hstep & Hreload).
  split; [exact with_history_in_sync|]. split; [reflexivity|]. split.
  - apply (Hstep (DeleteHistory "100") with_history); try reflexivity.
  - apply Hreload. reflexivity.
Defined.

Lemma status_has_its_data_witness :
  run quota_all [SubmitFile photo; Complete 0 (Loaded photo_url);
                 Complete 0 (Rejected (Error "Failed to fetch"))]
    (load (initial None)) = Some failed_session /\
  session_consistent failed_session /\
  retry_rendered failed_session = true.
Proof.
  assert (Hrun : run quota_all
                   [SubmitFile photo; Complete 0 (Loaded photo_url);
                    Complete 0 (Rejected (Error "Failed to fetch"))]
                   (load (initial None)) = Some failed_session)
    by (vm_compute; reflexivity).
  destruct (status_has_its_data quota_all _ None failed_session Hrun)
    as (Hc & Hretry & _).
  split; [exact Hrun|]. split; [exact Hc|].
  apply Hretry; vm_compute; [reflexivity|reflexivity|discriminate].
Defined.

Lemma delete_spares_other_readings_witness :
  In (newItem photo_media likely_synthetic 200 200)
     (history (app (deleteHistoryItem quota_all (toString 100)
        (setHistory [newItem photo_media likely_synthetic 200 200;
                     newItem photo_media likely_synthetic 100 100]
           (initial None))))) /\
  ~ In (newItem photo_media likely_synthetic 100 100)
     (history (app (deleteHistoryItem quota_all (toString 100)
        (setHistory [newItem photo_media likely_synthetic 200 200;
                     newItem photo_media likely_synthetic 100 100]
           (initial None))))).
Proof.
  split.
  - apply (proj2 (delete_spares_other_readings quota_all 100 _ _ _ 200 200)).
    split; [now left|lia].
  - intros Hin.
    apply (proj1 (delete_spares_other_readings quota_all 100 _ _ _ 100 100)) in Hin.
    now destruct Hin as [_ Hne].
Defined.

Lemma deletion_during_analysis_undone_witness :
  File.size photo <= MAX_SIZE /\
  quota_all (newItem photo_media likely_synthetic 200 200 :: history (app with_history))
    = true /\
  exists w1 w2,
    run quota_all [SubmitFile photo; Complete 0 (Loaded photo_url); DeleteHistory "100"]
      with_history = Some w1 /\
    has_id "100" (history (app w1)) = false /\
    complete quota_all 0 (Resolved likely_synthetic 200 200) w1 = Some w2 /\
    history (app w2) =
      [newItem photo_media likely_synthetic 200 200; old_record; older_record] /\
    storage w2 = Some (Json (history (app w2))).
Proof.
  assert (Hsize : File.size photo <= MAX_SIZE) by by_computation.
  split; [exact Hsize|]. split; [reflexivity|].
  exact (deletion_during_analysis_undone quota_all photo "image/jpeg" "AAAA"
           likely_synthetic 200 200 "100" with_history
           Hsize eq_refl eq_refl eq_refl eq_refl eq_refl).
Defined.

Lemma verdict_after_reset_witness :
  nth_error (pending submitting_session) 0 = Some (Analyzing photo_media []) /\
  exists w',
    run quota_all [Reset; Complete 0 (Resolved likely_synthetic 200 200)]
      submitting_session = Some w' /\
    status (app w') = COMPLETED /\
    currentFile (app w') = None /\
    active_view_rendered w' = false /\
    history (app w') = [newItem photo_media likely_synthetic 200 200].
Proof.
  split; [reflexivity|].
  destruct (verdict_after_reset quota_all 0 photo_media [] likely_synthetic 200 200
              submitting_session eq_refl)
    as (w' & Hrun & Hst & _ & Hcf & _ & Hview & _ & Harch).
  destruct (Harch eq_refl) as [Hhist _].
  exists w'. repeat split; assumption.
Defined.

Lemma failure_before_capture_shows_nothing_witness :
  currentFile (app (initial None)) = None /\
  File.size huge > MAX_SIZE /\
  File.size photo <= MAX_SIZE /\
  status (app (processFile huge (initial None))) = ERROR /\
  upload_rendered (processFile huge (initial None)) = false /\
  active_view_rendered (processFile huge (initial None)) = false /\
  exists w',
    run quota_all [SubmitFile photo; Complete 0 ReadFailed] (initial None) = Some w' /\
    status (app w') = ERROR /\
    upload_rendered w' = false /\
    active_view_rendered w' = false.
Proof.
  assert (Hhuge : File.size huge > MAX_SIZE) by by_computation.
  assert (Hphoto : File.size photo <= MAX_SIZE) by by_computation.
  destruct (failure_before_capture_shows_nothing quota_all huge (initial None) eq_refl)
    as (Hover & _).
  destruct (failure_before_capture_shows_nothing quota_all photo (initial None) eq_refl)
    as (_ & Hread).
  destruct (Hover Hhuge) as (Hst & _ & Hup & Hview & _).
  destruct (Hread Hphoto) as (w' & Hrun & Hst' & _ & Hup' & Hview' & _).
  split; [reflexivity|]. split; [exact Hhuge|]. split; [exact Hphoto|].
  split; [exact Hst|]. split; [exact Hup|]. split; [exact Hview|].
  exists w'. repeat split; assumption.
Defined.

Lemma unparsable_history_replaced_witness :
  File.size photo <= MAX_SIZE /\
  quota_all [newItem photo_media likely_synthetic 200 200] = true /\
  history (app (load (initial (Some (Malformed "[{")))) ) = [] /\
  exists w',
    run quota_all [SubmitFile photo; Complete 0 (Loaded photo_url);
                   Complete 0 (Resolved likely_synthetic 200 200)]
      (load (initial (Some (Malformed "[{")))) = Some w' /\
    storage w' = Some (Json [newItem photo_media likely_synthetic 200 200]).
Proof.
  assert (Hsize : File.size photo <= MAX_SIZE) by by_computation.
  destruct (unparsable_history_replaced quota_all "[{" photo "image/jpeg" "AAAA"
              likely_synthetic 200 200 Hsize eq_refl eq_refl eq_refl eq_refl eq_refl)
    as (Hh & _ & w' & Hrun & _ & _ & Hsto).
  split; [exact Hsize|]. split; [reflexivity|]. split; [exact Hh|].
  exists w'. split; assumption.
Defined.

Lemma archived_record_reopens_witness :
  let item := newItem photo_media likely_synthetic 200 200 in
  quota_chars 4 [item; older_record] = false /\
  quota_chars 4 [itemWithoutImage item; older_record] = true /\
  exists first cf,
    hd_error (history (app (analyze_resolved (quota_chars 4) photo_media [older_record]
                              likely_synthetic 200 200 submitting_session)))
      = Some first /\
    currentFile (app (loadHistoryItem first
                        (analyze_resolved (quota_chars 4) photo_media [older_record]
                           likely_synthetic 200 200 submitting_session))) = Some cf /\
    UploadedFile.mimeType cf = "image/jpeg" /\
    media_preview cf = PreviewNotAvailable.
Proof.
  intros item.
  assert (Hfull : quota_chars 4 [item; older_record] = false) by reflexivity.
  assert (Hel : quota_chars 4 [itemWithoutImage item; older_record] = true)
    by reflexivity.
  destruct (archived_record_reopens (quota_chars 4) photo_media [older_record]
              likely_synthetic 200 200 submitting_session (or_intror Hel))
    as (first & cf & Hhd & Hcf & _ & _ & _ & _ & _ & Hmime & _ & _ & _ & _ & Hnone).
  split; [exact Hfull|]. split; [exact Hel|].
  exists first, cf. split; [exact Hhd|]. split; [exact Hcf|].
  split; [exact Hmime|]. apply Hnone. exact Hfull.
Defined.
